(** * Auto Close Tabs: the workspace activation resolver and the timer tick

    A shallow embedding of [src/extension.ts].  The extension keeps an age
    counter per open editor tab, closes old tabs on a timer, and lets the
    user switch the automatic closing on or off per workspace through two
    override lists stored in the settings.

    The host editor is a record ([Host]); the functions of [extension.ts]
    are state transformers over it, written in a small state monad.  Every
    effectful call into a collaborator (logging, notifications, the counter
    helpers, the closing pass) is appended to [calls], so that the order in
    which the extension drives its collaborators can be stated. *)

From stdpp Require Import gmap strings list fin_maps.

Open Scope string_scope.
Open Scope list_scope.
Open Scope Z_scope.

(** ** JavaScript values and falsiness *)

(** What a setting read can yield before it is typed: the activation
    setting is compared with [!==], which is defined on every value. *)
Inductive JsValue : Type :=
| JsUndefined
| JsNull
| JsBoolean (b : bool)
| JsNumber (n : Z)
| JsString (s : string).

(** [a === b] on the values above. *)
Definition strictEquals (a b : JsValue) : bool :=
  match a, b with
  | JsUndefined, JsUndefined => true
  | JsNull, JsNull => true
  | JsBoolean x, JsBoolean y => Bool.eqb x y
  | JsNumber x, JsNumber y => Z.eqb x y
  | JsString x, JsString y => String.eqb x y
  | _, _ => false
  end.

(** Truthiness of a [string | null]: [null] and the empty string are falsy. *)
Definition truthy (v : option string) : bool :=
  match v with
  | None => false
  | Some s => negb (String.eqb s "")
  end.

(** [s.startsWith(p)] *)
Definition startsWith (s p : string) : bool := String.prefix p s.

(** [l.includes(w)] on an array of strings. *)
Fixpoint includes (l : list string) (w : string) : bool :=
  match l with
  | [] => false
  | x :: r => String.eqb x w || includes r w
  end.

(** ** Settings *)

Record Settings : Type := mkSettings {
  activation : JsValue;
  excludedWorkspaces : list string;
  includedWorkspaces : list string;
  tabAgeForAutomaticClosing : Z
}.

Inductive SettingKey : Type :=
| autoclosetabs_activation
| autoclosetabs_excludedWorkspaces
| autoclosetabs_includedWorkspaces
| autoclosetabs_tabAgeForAutomaticClosing.

Definition SettingType (k : SettingKey) : Type :=
  match k with
  | autoclosetabs_activation => JsValue
  | autoclosetabs_excludedWorkspaces => list string
  | autoclosetabs_includedWorkspaces => list string
  | autoclosetabs_tabAgeForAutomaticClosing => Z
  end.

(** Modelled from the spec: [getSettingValue] of [./settings], which is not
    among the sources.  The configuration store holds four named settings
    and a read returns the stored value of the named one. *)
Definition getSettingValue (k : SettingKey) (s : Settings) : SettingType k :=
  match k with
  | autoclosetabs_activation => activation s
  | autoclosetabs_excludedWorkspaces => excludedWorkspaces s
  | autoclosetabs_includedWorkspaces => includedWorkspaces s
  | autoclosetabs_tabAgeForAutomaticClosing => tabAgeForAutomaticClosing s
  end.

(** Modelled from the spec: [updateSettingValue] of [./settings], which is
    not among the sources.  A write replaces the stored value of the named
    setting and leaves the three others alone. *)
Definition updateSettingValue (k : SettingKey) : SettingType k -> Settings -> Settings :=
  match k with
  | autoclosetabs_activation => fun v s =>
      mkSettings v (excludedWorkspaces s) (includedWorkspaces s) (tabAgeForAutomaticClosing s)
  | autoclosetabs_excludedWorkspaces => fun v s =>
      mkSettings (activation s) v (includedWorkspaces s) (tabAgeForAutomaticClosing s)
  | autoclosetabs_includedWorkspaces => fun v s =>
      mkSettings (activation s) (excludedWorkspaces s) v (tabAgeForAutomaticClosing s)
  | autoclosetabs_tabAgeForAutomaticClosing => fun v s =>
      mkSettings (activation s) (excludedWorkspaces s) (includedWorkspaces s) v
  end.

(** ** The host *)

(** A tab is named by its identity, the key of its age counter. *)
Definition Tab : Type := string.

(** Effectful calls the extension makes, in program order. *)
Inductive Call : Type :=
| Log (msg : string)
| ShowInformationMessage (msg : string)
| IncrementTabTimeCounter (tab : Tab)
| CloseTabs (threshold : Z)
| CloseRequest (tabs : list Tab).

Record Host : Type := mkHost {
  (** [vscode.workspace.workspaceFile?.toString()] *)
  workspaceFile : option string;
  (** [vscode.workspace.workspaceFolders], each folder by [uri.toString()] *)
  workspaceFolders : option (list string);
  (** [vscode.window.tabGroups.all], each group by its [tabs] *)
  tabGroups : list (list Tab);
  settings : Settings;
  (** the age counters kept in the extension context *)
  tabTimeCounters : gmap Tab Z;
  calls : list Call
}.

Definition withSettings (s : Settings) (h : Host) : Host :=
  mkHost (workspaceFile h) (workspaceFolders h) (tabGroups h) s
         (tabTimeCounters h) (calls h).

Definition withTabTimeCounters (c : gmap Tab Z) (h : Host) : Host :=
  mkHost (workspaceFile h) (workspaceFolders h) (tabGroups h) (settings h)
         c (calls h).

Definition withCalls (cs : list Call) (h : Host) : Host :=
  mkHost (workspaceFile h) (workspaceFolders h) (tabGroups h) (settings h)
         (tabTimeCounters h) cs.

(** ** A state monad over the host *)

Definition M (A : Type) : Type := Host -> A * Host.

Definition ret {A} (a : A) : M A := fun h => (a, h).

Definition bind {A B} (m : M A) (k : A -> M B) : M B :=
  fun h => let (a, h') := m h in k a h'.

Notation "x <- c1 ;; c2" := (bind c1 (fun x => c2))
  (at level 100, c1 at next level, right associativity).
Notation "c1 ;; c2" := (bind c1 (fun _ => c2))
  (at level 100, right associativity).

Definition gets {A} (f : Host -> A) : M A := fun h => (f h, h).
Definition modify (f : Host -> Host) : M unit := fun h => (tt, f h).

Definition emit (c : Call) : M unit :=
  modify (fun h => withCalls (calls h ++ [c]) h).

(** [xs.forEach(f)] *)
Fixpoint forEach {A} (f : A -> M unit) (xs : list A) : M unit :=
  match xs with
  | [] => ret tt
  | x :: r => f x ;; forEach f r
  end.

(** State and result of a run. *)
Definition exec {A} (m : M A) (h : Host) : Host := snd (m h).
Definition eval {A} (m : M A) (h : Host) : A := fst (m h).

(** Modelled from the spec: [log] of [./common], which is not among the
    sources.  A diagnostic line: the spec gives logging no effect on the
    settings, the ledger or the tabs, so it is recorded and nothing else. *)
Definition log (msg : string) : M unit := emit (Log msg).

(** [vscode.window.showInformationMessage]: the notice shown to the user. *)
Definition showInformationMessage (msg : string) : M unit :=
  emit (ShowInformationMessage msg).

(** [getSettingValue(key)] and [updateSettingValue(key, value)] as the
    extension calls them, on the settings of the host. *)
Definition readSetting (k : SettingKey) : M (SettingType k) :=
  gets (fun h => getSettingValue k (settings h)).
Definition writeSetting (k : SettingKey) (v : SettingType k) : M unit :=
  modify (fun h => withSettings (updateSettingValue k v (settings h)) h).

(** ** extension.ts *)

Definition getWorkspaceUri : M (option string) :=
  workspaceFileUri <- gets workspaceFile ;;
  if truthy workspaceFileUri
     && negb (startsWith (default "" workspaceFileUri) "untitled:")
  then
    log ("Workspace file URI is " +:+ default "" workspaceFileUri) ;;
    ret workspaceFileUri
  else
    folders <- gets workspaceFolders ;;
    match folders with
    | Some [workspaceFolderUri] =>
        log ("Workspace folder URI is " +:+ workspaceFolderUri) ;;
        ret (Some workspaceFolderUri)
    | _ =>
        log "No permanent workspace URI" ;;
        ret None
    end.

Definition isActiveByDefault : M bool :=
  v <- (readSetting autoclosetabs_activation : M JsValue) ;;
  ret (negb (strictEquals v (JsString "nowhere-except-included"))).

Definition activateInWorkspace : M unit :=
  workspaceUri <- getWorkspaceUri ;;
  if negb (truthy workspaceUri) then
    showInformationMessage
      "Auto Close Tabs cannot be activated in a temporary workspace."
  else
    let uri := default "" workspaceUri in
    byDefault <- isActiveByDefault ;;
    if byDefault then
      excluded <- (readSetting autoclosetabs_excludedWorkspaces : M (list string)) ;;
      writeSetting autoclosetabs_excludedWorkspaces
        (filter (fun excludedWorkspace => excludedWorkspace <> uri) excluded)
    else
      included <- (readSetting autoclosetabs_includedWorkspaces : M (list string)) ;;
      writeSetting autoclosetabs_includedWorkspaces (included ++ [uri]).

Definition deactivateInWorkspace : M unit :=
  workspaceUri <- getWorkspaceUri ;;
  if negb (truthy workspaceUri) then
    showInformationMessage
      "Auto Close Tabs cannot be deactivated in a temporary workspace."
  else
    let uri := default "" workspaceUri in
    byDefault <- isActiveByDefault ;;
    if byDefault then
      excluded <- (readSetting autoclosetabs_excludedWorkspaces : M (list string)) ;;
      writeSetting autoclosetabs_excludedWorkspaces (excluded ++ [uri])
    else
      included <- (readSetting autoclosetabs_includedWorkspaces : M (list string)) ;;
      writeSetting autoclosetabs_includedWorkspaces
        (filter (fun includedWorkspace => includedWorkspace <> uri) included).

Definition isActiveInWorkspace : M bool :=
  workspaceUri <- getWorkspaceUri ;;
  byDefault <- isActiveByDefault ;;
  if byDefault then
    if negb (truthy workspaceUri) then ret true
    else
      excluded <- (readSetting autoclosetabs_excludedWorkspaces : M (list string)) ;;
      ret (negb (includes excluded (default "" workspaceUri)))
  else
    if negb (truthy workspaceUri) then ret false
    else
      included <- (readSetting autoclosetabs_includedWorkspaces : M (list string)) ;;
      ret (includes included (default "" workspaceUri)).

(** ** The age ledger and the closing policy ([./autoclosetabs]) *)

(** Modelled from the spec: [incrementTabTimeCounter] of [./autoclosetabs],
    which is not among the sources.  It adds 1 to the tab's age counter; a
    tab without a ledger entry is left without one (a missing entry on
    increment is benign, and the increment creates none). *)
Definition incrementTabTimeCounter (tab : Tab) : M unit :=
  emit (IncrementTabTimeCounter tab) ;;
  modify (fun h => withTabTimeCounters (alter Z.succ tab (tabTimeCounters h)) h).

(** A tab qualifies for closing when its age counter has reached the
    threshold; a tab without a counter has no age and does not qualify. *)
Definition isCandidate (threshold : Z) (ledger : gmap Tab Z) (tab : Tab) : bool :=
  match ledger !! tab with
  | Some age => threshold <=? age
  | None => false
  end.

(** The tab with the smallest age counter, the first one in iteration order
    among equals. *)
Fixpoint youngest (ledger : gmap Tab Z) (tabs : list Tab) : option (Tab * Z) :=
  match tabs with
  | [] => None
  | tab :: rest =>
      match ledger !! tab, youngest ledger rest with
      | Some age, Some (tab', age') =>
          if age' <? age then Some (tab', age') else Some (tab, age)
      | Some age, None => Some (tab, age)
      | None, later => later
      end
  end.

(** Drops the first occurrence of [tab]. *)
Fixpoint removeFirst (tab : Tab) (tabs : list Tab) : list Tab :=
  match tabs with
  | [] => []
  | x :: rest => if decide (x = tab) then rest else x :: removeFirst tab rest
  end.

(** Modelled from the spec: steps 1 to 3 of the closing policy of
    [./autoclosetabs] (not among the sources).  [openTabs] are the open tabs
    of all groups; the candidates are those whose age has reached the
    threshold; when every open tab is a candidate, the youngest is taken
    out of the candidates. *)
Definition selectToClose (threshold : Z) (ledger : gmap Tab Z)
    (openTabs : list Tab) : list Tab :=
  let candidates := filter (fun tab => isCandidate threshold ledger tab) openTabs in
  if bool_decide (candidates = openTabs) then
    match youngest ledger candidates with
    | Some (survivor, _) => removeFirst survivor candidates
    | None => candidates
    end
  else candidates.

(** Modelled from the spec: [closeTabs] of [./autoclosetabs], which is not
    among the sources.  It reads the ledger and the open tabs of all groups
    and issues the close requests for the selected tabs (step 4); it does
    not touch the ledger, which learns of a closed tab from the host.  The
    threshold is compared with the counters as it is given (one tick per
    unit, as in the spec's scenario). *)
Definition closeTabs (threshold : Z) : M unit :=
  emit (CloseTabs threshold) ;;
  ledger <- gets tabTimeCounters ;;
  groups <- gets tabGroups ;;
  emit (CloseRequest (selectToClose threshold ledger (concat groups))).

(** The tabs still open once the host has honoured the close requests. *)
Definition remainingOpen (openTabs closed : list Tab) : list Tab :=
  filter (fun tab => tab ∉ closed) openTabs.

(** ** Commands and the timer ([extension.ts]) *)

Inductive Command : Type :=
| autoclosetabs_closeUnusedTabs
| autoclosetabs_activate
| autoclosetabs_deactivate.

(** The handler [registerCommands] registers under each command name. *)
Definition registerCommands (command : Command) : M unit :=
  match command with
  | autoclosetabs_closeUnusedTabs => closeTabs 0
  | autoclosetabs_activate => activateInWorkspace
  | autoclosetabs_deactivate => deactivateInWorkspace
  end.

(** The callback [activate] hands to [setInterval]: one timer tick. *)
Definition intervalCallback : M unit :=
  groups <- gets tabGroups ;;
  forEach (fun tabGroup =>
             forEach (fun tab => incrementTabTimeCounter tab) tabGroup) groups ;;
  active <- isActiveInWorkspace ;;
  if active then
    threshold <- (readSetting autoclosetabs_tabAgeForAutomaticClosing : M Z) ;;
    closeTabs threshold
  else ret tt.

(** The two statements of the callback on their own: the increments of
    lines 181 to 183, and the guarded closing pass of lines 185 to 190. *)
Definition incrementAll : M unit :=
  groups <- gets tabGroups ;;
  forEach (fun tabGroup =>
             forEach (fun tab => incrementTabTimeCounter tab) tabGroup) groups.

Definition closeIfActive : M unit :=
  active <- isActiveInWorkspace ;;
  if active then
    threshold <- (readSetting autoclosetabs_tabAgeForAutomaticClosing : M Z) ;;
    closeTabs threshold
  else ret tt.

(** All open tabs, group after group. *)
Definition openTabs (h : Host) : list Tab := concat (tabGroups h).

(** The calls of the guarded closing pass of a tick, the resolver's log
    line apart. *)
Definition closingCalls (h : Host) : list Call :=
  if eval isActiveInWorkspace h then
    [CloseTabs (tabAgeForAutomaticClosing (settings h));
     CloseRequest (selectToClose (tabAgeForAutomaticClosing (settings h))
                                 (tabTimeCounters h) (openTabs h))]
  else [].

(** The ledger after one increment for each tab of [tabs], in turn. *)
Definition incremented (tabs : list Tab) (ledger : gmap Tab Z) : gmap Tab Z :=
  foldl (fun m tab => alter Z.succ tab m) ledger tabs.

(** The calls made by a run, that is, what it appended to [calls]. *)
Definition callsOf {A} (m : M A) (h : Host) : list Call :=
  drop (length (calls h)) (calls (exec m h)).

(** Three tabs in two groups, one folder open. *)
Definition demo : Host :=
  mkHost None (Some ["file:///home/u/proj"])
         [["a.ts"; "b.ts"]; ["c.ts"]]
         (mkSettings (JsString "everywhere-except-excluded") [] [] 30)
         (list_to_map [("a.ts", 31); ("b.ts", 5); ("c.ts", 29)]) [].

(** ** Sample hosts *)

Definition W1 : string := "file:///w/W1.code-workspace".

(** The workspace file [W1] is open. *)
Definition inW1 (mode : JsValue) (excluded included : list string) : Host :=
  mkHost (Some W1) None [] (mkSettings mode excluded included 30) ∅ [].

(** No workspace file and no folder: a temporary context. *)
Definition temporary (mode : JsValue) (excluded included : list string) : Host :=
  mkHost None None [] (mkSettings mode excluded included 30) ∅ [].

(** An untitled (not yet saved) workspace with a single folder. *)
Definition untitledWorkspace : Host :=
  mkHost (Some "untitled:1730563200000") (Some ["file:///home/u/proj"]) []
         (mkSettings JsUndefined [] [] 30) ∅ [].

(** No workspace file resolves: none is open, or its URI is empty or
    names an untitled workspace. *)
Definition noPermanentWorkspaceFile (h : Host) : Prop :=
  forall w, workspaceFile h = Some w -> w = "" \/ startsWith w "untitled:" = true.

(** [h] with other override lists. *)
Definition withOverrideLists (excluded included : list string) (h : Host) : Host :=
  withSettings (mkSettings (activation (settings h)) excluded included
                           (tabAgeForAutomaticClosing (settings h))) h.

(** [activate()] followed by [deactivate()]. *)
Definition activateThenDeactivate : M unit :=
  registerCommands autoclosetabs_activate ;;
  registerCommands autoclosetabs_deactivate.

(** [demo] with its folder on the excluded-workspaces list. *)
Definition demoExcluded : Host :=
  withSettings (mkSettings (JsString "everywhere-except-excluded")
                           ["file:///home/u/proj"] [] 30) demo.

(** ** The extension's lifecycle ([extension.ts], lines 143 to 201) *)

(** Modelled from the spec: [resetTabTimeCounter] of [./autoclosetabs],
    which is not among the sources.  It sets the tab's age counter to 0 and
    creates the entry when there is none. *)
Definition resetTabTimeCounter (tab : Tab) : M unit :=
  modify (fun h => withTabTimeCounters (<[tab := 0]> (tabTimeCounters h)) h).

(** Modelled from the spec: [removeTabTimeCounter] of [./autoclosetabs],
    which is not among the sources.  It deletes the tab's entry and does
    nothing when there is none. *)
Definition removeTabTimeCounter (tab : Tab) : M unit :=
  modify (fun h => withTabTimeCounters (delete tab (tabTimeCounters h)) h).

(** What [activate] pushes on [context.subscriptions]. *)
Inductive Subscription : Type :=
| CommandRegistration (command : Command)
| ConfigurationListener
| TabsListener.

(** The editor around the host: the context keys set through the
    [setContext] command, the subscriptions of the extension context, the
    intervals the runtime has running with the handle the next
    [setInterval] returns, and the module variable [interval], which is
    [undefined] until [activate] has run. *)
Record Editor : Type := mkEditor {
  host : Host;
  contextKeys : gmap string bool;
  subscriptions : list Subscription;
  timers : gset nat;
  nextTimer : nat;
  interval : option nat
}.

Definition withHost (h : Host) (e : Editor) : Editor :=
  mkEditor h (contextKeys e) (subscriptions e) (timers e) (nextTimer e)
           (interval e).

(** Runs a computation of the extension on the host of the editor. *)
Definition onHost {A} (m : M A) (e : Editor) : Editor :=
  withHost (exec m (host e)) e.

(** [vscode.commands.executeCommand("setContext", key, value)] *)
Definition setContext (key : string) (value : bool) (e : Editor) : Editor :=
  mkEditor (host e) (<[key := value]> (contextKeys e)) (subscriptions e)
           (timers e) (nextTimer e) (interval e).

(** [context.subscriptions.push(s)] *)
Definition subscribe (s : Subscription) (e : Editor) : Editor :=
  mkEditor (host e) (contextKeys e) (subscriptions e ++ [s]) (timers e)
           (nextTimer e) (interval e).

(** [interval = setInterval(callback, ...)]: the runtime starts an interval
    under a new handle, which is stored in [interval]. *)
Definition setInterval (e : Editor) : Editor :=
  mkEditor (host e) (contextKeys e) (subscriptions e)
           ({[nextTimer e]} ∪ timers e) (S (nextTimer e))
           (Some (nextTimer e)).

(** [clearInterval(handle)]: stops that interval; [clearInterval(undefined)]
    does nothing. *)
Definition clearInterval (handle : option nat) (e : Editor) : Editor :=
  match handle with
  | Some t =>
      mkEditor (host e) (contextKeys e) (subscriptions e)
               (timers e ∖ {[t]}) (nextTimer e) (interval e)
  | None => e
  end.

Definition setActiveInWorkspaceState (e : Editor) : Editor :=
  let (active, h) := isActiveInWorkspace (host e) in
  setContext "autoclosetabs.activeInWorkspace" active (withHost h e).

(** The listener [activate] passes to [onDidChangeConfiguration]. *)
Definition onDidChangeConfiguration (affectsConfiguration : string -> bool)
    (e : Editor) : Editor :=
  if affectsConfiguration "autoclosetabs.activation"
     || affectsConfiguration "autoclosetabs.excludedWorkspaces"
     || affectsConfiguration "autoclosetabs.includedWorkspaces"
  then setActiveInWorkspaceState e
  else e.

(** The listener [activate] passes to [onDidChangeTabs]. *)
Definition onDidChangeTabs (opened changed closed : list Tab) : M unit :=
  forEach (fun tab => resetTabTimeCounter tab) (opened ++ changed) ;;
  forEach (fun tab => removeTabTimeCounter tab) closed.

(** The exported [activate(context)]. *)
Definition activate (e : Editor) : Editor :=
  let e := subscribe (CommandRegistration autoclosetabs_closeUnusedTabs) e in
  let e := subscribe (CommandRegistration autoclosetabs_activate) e in
  let e := subscribe (CommandRegistration autoclosetabs_deactivate) e in
  let e := setActiveInWorkspaceState e in
  let e := subscribe ConfigurationListener e in
  let e :=
    onHost (groups <- gets tabGroups ;;
            forEach (fun tabGroup =>
                       forEach (fun tab => resetTabTimeCounter tab) tabGroup)
                    groups) e in
  let e := subscribe TabsListener e in
  setInterval e.

(** The exported [deactivate()].  How [log] prints the interval handle is
    not in the sources and is left to [render]. *)
Definition deactivate (render : option nat -> string) (e : Editor) : Editor :=
  let e := onHost (log "Deactivate autoclosetabs") e in
  let e := onHost (log (render (interval e))) e in
  clearInterval (interval e) e.

(** A command invoked by the user runs its registered handler. *)
Definition executeCommand (command : Command) (e : Editor) : Editor :=
  onHost (registerCommands command) e.

(** [n] timer ticks in a row. *)
Definition ticks (n : nat) (h : Host) : Host :=
  Nat.iter n (exec intervalCallback) h.

(** [deactivate()] followed by [activate()], the two commands. *)
Definition deactivateThenActivate : M unit :=
  registerCommands autoclosetabs_deactivate ;;
  registerCommands autoclosetabs_activate.

(** The key of the override list the commands write in the mode of [h]. *)
Definition writtenListKey (h : Host) : string :=
  if eval isActiveByDefault h then "autoclosetabs.excludedWorkspaces"
  else "autoclosetabs.includedWorkspaces".

(** An editor freshly started around [h], before [activate] has run. *)
Definition fresh (h : Host) : Editor := mkEditor h ∅ [] ∅ 0%nat None.

(** The workspace file [W2] is open, with the settings of a host in [W1]. *)
Definition W2 : string := "file:///w/W2.code-workspace".
Definition inW2 (mode : JsValue) (excluded included : list string) : Host :=
  mkHost (Some W2) None [] (mkSettings mode excluded included 30) ∅ [].

(** * Properties *)

(** ** Running the monad *)

Lemma bind_run {A B} (m : M A) (k : A -> M B) (h : Host) :
  bind m k h = k (eval m h) (exec m h).
Proof. unfold bind, eval, exec. destruct (m h); reflexivity. Qed.

Lemma exec_bind {A B} (m : M A) (k : A -> M B) (h : Host) :
  exec (bind m k) h = exec (k (eval m h)) (exec m h).
Proof. unfold exec at 1. rewrite bind_run. reflexivity. Qed.

Lemma eval_bind {A B} (m : M A) (k : A -> M B) (h : Host) :
  eval (bind m k) h = eval (k (eval m h)) (exec m h).
Proof. unfold eval at 1. rewrite bind_run. reflexivity. Qed.

Lemma includes_elem_of (l : list string) (w : string) :
  includes l w = bool_decide (w ∈ l).
Proof.
  induction l as [|x r IH]; cbn [includes].
  - symmetry. apply bool_decide_eq_false_2, not_elem_of_nil.
  - rewrite IH. destruct (String.eqb_spec x w) as [->|Hne]; cbn [orb].
    + symmetry. apply bool_decide_eq_true_2. left.
    + apply bool_decide_ext. rewrite elem_of_cons.
      split; [tauto | intros [->|Hin]; [congruence | exact Hin]].
Qed.

Lemma truthy_Some (w : string) : truthy (Some w) = true <-> w <> "".
Proof.
  simpl. destruct (String.eqb_spec w "") as [->|Hne]; simpl; split; congruence.
Qed.

(** ** The workspace identifier *)

Example getWorkspaceUri_file :
  eval getWorkspaceUri
    (mkHost (Some W1) (Some ["file:///w/x"; "file:///w/y"])
            [] (mkSettings JsUndefined [] [] 30) ∅ [])
  = Some W1.
Proof. reflexivity. Qed.

(** [getWorkspaceUri] logs one line and changes nothing else. *)
Lemma getWorkspaceUri_exec (h : Host) :
  exists msg, exec getWorkspaceUri h = withCalls (calls h ++ [Log msg]) h.
Proof.
  unfold getWorkspaceUri. rewrite exec_bind.
  change (exec (gets workspaceFile) h) with h.
  change (eval (gets workspaceFile) h) with (workspaceFile h).
  destruct (truthy (workspaceFile h) && _).
  - eexists. reflexivity.
  - rewrite exec_bind.
    change (exec (gets workspaceFolders) h) with h.
    change (eval (gets workspaceFolders) h) with (workspaceFolders h).
    destruct (workspaceFolders h) as [[|u [|v r]]|]; eexists; reflexivity.
Qed.

(** The result of [isActiveInWorkspace], read off the source. *)
Lemma isActiveInWorkspace_eval (h : Host) :
  eval isActiveInWorkspace h =
  if eval isActiveByDefault h then
    if truthy (eval getWorkspaceUri h)
    then negb (includes (excludedWorkspaces (settings h))
                        (default "" (eval getWorkspaceUri h)))
    else true
  else
    if truthy (eval getWorkspaceUri h)
    then includes (includedWorkspaces (settings h))
                  (default "" (eval getWorkspaceUri h))
    else false.
Proof.
  unfold isActiveInWorkspace. rewrite eval_bind, eval_bind.
  destruct (getWorkspaceUri_exec h) as [msg E]. rewrite E.
  change (eval isActiveByDefault (withCalls _ h)) with (eval isActiveByDefault h).
  destruct (eval isActiveByDefault h), (truthy (eval getWorkspaceUri h));
    reflexivity.
Qed.

(** C1.  The activation resolver follows its decision table.  In
    default-active mode the result is true when no workspace identifier
    resolves ([getWorkspaceUri] yields a falsy value) and otherwise true
    exactly when the identifier is not in the excluded-workspaces list; in
    default-inactive mode the result is false when no identifier resolves
    and otherwise true exactly when the identifier is in the
    included-workspaces list. *)
Theorem isActiveInWorkspace_decision_table (h : Host) :
  (eval isActiveByDefault h = true ->
   truthy (eval getWorkspaceUri h) = false ->
   eval isActiveInWorkspace h = true)
  /\ (forall w, eval isActiveByDefault h = true ->
      eval getWorkspaceUri h = Some w -> w <> "" ->
      eval isActiveInWorkspace h
      = bool_decide (w ∉ excludedWorkspaces (settings h)))
  /\ (eval isActiveByDefault h = false ->
      truthy (eval getWorkspaceUri h) = false ->
      eval isActiveInWorkspace h = false)
  /\ (forall w, eval isActiveByDefault h = false ->
      eval getWorkspaceUri h = Some w -> w <> "" ->
      eval isActiveInWorkspace h
      = bool_decide (w ∈ includedWorkspaces (settings h))).
Proof.
  rewrite isActiveInWorkspace_eval.
  repeat split.
  - intros -> ->. reflexivity.
  - intros w -> Hw Hne. rewrite Hw.
    apply truthy_Some in Hne. rewrite Hne. simpl default.
    rewrite includes_elem_of.
    destruct (decide (w ∈ excludedWorkspaces (settings h))) as [Hin|Hout].
    + rewrite (bool_decide_eq_true_2 _ Hin). simpl.
      symmetry. apply bool_decide_eq_false_2. tauto.
    + rewrite (bool_decide_eq_false_2 _ Hout). simpl.
      symmetry. apply bool_decide_eq_true_2. exact Hout.
  - intros -> ->. reflexivity.
  - intros w -> Hw Hne. rewrite Hw.
    apply truthy_Some in Hne. rewrite Hne. simpl default.
    apply includes_elem_of.
Qed.

Lemma isActiveInWorkspace_decision_table_witness :
  eval isActiveInWorkspace (temporary JsUndefined [W1] []) = true
  /\ eval isActiveInWorkspace (inW1 JsUndefined [W1] []) = false
  /\ eval isActiveInWorkspace
       (temporary (JsString "nowhere-except-included") [] [W1]) = false
  /\ eval isActiveInWorkspace
       (inW1 (JsString "nowhere-except-included") [] [W1]) = true.
Proof.
  pose proof (isActiveInWorkspace_decision_table
                (temporary JsUndefined [W1] [])) as (T1 & _).
  pose proof (isActiveInWorkspace_decision_table
                (inW1 JsUndefined [W1] [])) as (_ & T2 & _).
  pose proof (isActiveInWorkspace_decision_table
                (temporary (JsString "nowhere-except-included") [] [W1]))
    as (_ & _ & T3 & _).
  pose proof (isActiveInWorkspace_decision_table
                (inW1 (JsString "nowhere-except-included") [] [W1]))
    as (_ & _ & _ & T4).
  split; [|split; [|split]].
  - apply T1; reflexivity.
  - apply (T2 W1); [reflexivity | reflexivity | discriminate].
  - apply T3; reflexivity.
  - apply (T4 W1); [reflexivity | reflexivity | discriminate].
Defined.

Lemma getWorkspaceUri_eval_file (h : Host) (w : string) :
  workspaceFile h = Some w -> w <> "" -> startsWith w "untitled:" = false ->
  eval getWorkspaceUri h = Some w.
Proof.
  intros Hw Hne Hun. unfold getWorkspaceUri. rewrite eval_bind.
  change (eval (gets workspaceFile) h) with (workspaceFile h).
  rewrite Hw. apply truthy_Some in Hne. rewrite Hne. simpl default.
  rewrite Hun. reflexivity.
Qed.

Lemma getWorkspaceUri_eval_folders (h : Host) :
  noPermanentWorkspaceFile h ->
  eval getWorkspaceUri h =
  match workspaceFolders h with
  | Some [u] => Some u
  | _ => None
  end.
Proof.
  intros Hno. unfold getWorkspaceUri. rewrite eval_bind.
  change (eval (gets workspaceFile) h) with (workspaceFile h).
  change (exec (gets workspaceFile) h) with h.
  assert (truthy (workspaceFile h)
          && negb (startsWith (default "" (workspaceFile h)) "untitled:")
          = false) as ->.
  { destruct (workspaceFile h) as [w|] eqn:Hw; [|reflexivity].
    destruct (Hno w Hw) as [->|Hun]; [reflexivity|].
    simpl default. rewrite Hun. apply andb_false_r. }
  rewrite eval_bind.
  change (eval (gets workspaceFolders) h) with (workspaceFolders h).
  destruct (workspaceFolders h) as [[|u [|v r]]|]; reflexivity.
Qed.

(** The identifier depends on the open workspace file and folders only. *)
Lemma getWorkspaceUri_eval_ext (h h' : Host) :
  workspaceFile h = workspaceFile h' ->
  workspaceFolders h = workspaceFolders h' ->
  eval getWorkspaceUri h = eval getWorkspaceUri h'.
Proof.
  intros Hf Hd. unfold getWorkspaceUri. rewrite !eval_bind.
  change (eval (gets workspaceFile) h) with (workspaceFile h).
  change (eval (gets workspaceFile) h') with (workspaceFile h').
  rewrite <- Hf.
  destruct (truthy (workspaceFile h) && _); [reflexivity|].
  rewrite !eval_bind.
  change (eval (gets workspaceFolders) (exec (gets workspaceFile) h))
    with (workspaceFolders h).
  change (eval (gets workspaceFolders) (exec (gets workspaceFile) h'))
    with (workspaceFolders h').
  rewrite <- Hd.
  destruct (workspaceFolders h) as [[|u [|v r]]|]; reflexivity.
Qed.

(** C5, as stated, fails: an open workspace file is not always
    the identifier.  The file of an untitled workspace is skipped, and the
    sole folder is taken instead. *)
Lemma getWorkspaceUri_untitled_counterexample :
  ~ (forall (h : Host) (w : string),
        workspaceFile h = Some w -> eval getWorkspaceUri h = Some w).
Proof.
  intros H. specialize (H untitledWorkspace "untitled:1730563200000" eq_refl).
  vm_compute in H. discriminate H.
Qed.

(** C5, amended.  The identifier is the workspace-file URI when a workspace
    file is open whose URI is not empty and does not start with
    [untitled:]; otherwise it is the sole folder's URI when exactly one
    folder is open; otherwise none resolves, and then no content of the
    override lists changes the resolver's answer, which is the default of
    the mode. *)
Theorem getWorkspaceUri_resolution (h : Host) :
  (forall w, workspaceFile h = Some w -> w <> "" ->
             startsWith w "untitled:" = false ->
             eval getWorkspaceUri h = Some w)
  /\ (forall u, noPermanentWorkspaceFile h -> workspaceFolders h = Some [u] ->
                eval getWorkspaceUri h = Some u)
  /\ (noPermanentWorkspaceFile h ->
      (forall u, workspaceFolders h <> Some [u]) ->
      eval getWorkspaceUri h = None)
  /\ (eval getWorkspaceUri h = None ->
      forall excluded included,
        eval isActiveInWorkspace (withOverrideLists excluded included h)
        = eval isActiveByDefault h).
Proof.
  split; [|split; [|split]].
  - apply getWorkspaceUri_eval_file.
  - intros u Hno Hu. rewrite (getWorkspaceUri_eval_folders h Hno), Hu.
    reflexivity.
  - intros Hno Hu. rewrite (getWorkspaceUri_eval_folders h Hno).
    destruct (workspaceFolders h) as [[|u [|v r]]|]; try reflexivity.
    destruct (Hu u eq_refl).
  - intros Hnone excluded included.
    rewrite isActiveInWorkspace_eval. unfold withOverrideLists.
    rewrite (getWorkspaceUri_eval_ext (withSettings _ h) h eq_refl eq_refl), Hnone.
    simpl truthy.
    change (eval isActiveByDefault (withSettings _ h))
      with (eval isActiveByDefault h).
    destruct (eval isActiveByDefault h); reflexivity.
Qed.

Lemma untitledWorkspace_noPermanentWorkspaceFile :
  noPermanentWorkspaceFile untitledWorkspace.
Proof. intros w Hw. injection Hw as <-. right. reflexivity. Qed.

Lemma temporary_noPermanentWorkspaceFile mode excluded included :
  noPermanentWorkspaceFile (temporary mode excluded included).
Proof. intros w Hw. discriminate Hw. Qed.

Lemma getWorkspaceUri_resolution_witness :
  eval getWorkspaceUri (inW1 JsUndefined [] []) = Some W1
  /\ eval getWorkspaceUri untitledWorkspace = Some "file:///home/u/proj"
  /\ eval getWorkspaceUri (temporary JsUndefined [W1] [W1]) = None
  /\ eval isActiveInWorkspace
       (withOverrideLists [W1] [] (temporary JsUndefined [] [])) = true.
Proof.
  pose proof (getWorkspaceUri_resolution (inW1 JsUndefined [] []))
    as (R1 & _).
  pose proof (getWorkspaceUri_resolution untitledWorkspace) as (_ & R2 & _).
  pose proof (getWorkspaceUri_resolution (temporary JsUndefined [W1] [W1]))
    as (_ & _ & R3 & _).
  pose proof (getWorkspaceUri_resolution (temporary JsUndefined [] []))
    as (_ & _ & _ & R4).
  split; [|split; [|split]].
  - apply (R1 W1); [reflexivity | discriminate | reflexivity].
  - apply (R2 "file:///home/u/proj");
      [apply untitledWorkspace_noPermanentWorkspaceFile | reflexivity].
  - apply R3; [apply temporary_noPermanentWorkspaceFile | discriminate].
  - apply (R4 eq_refl [W1] []).
Defined.

(** ** The activation mode *)

Lemma strictEquals_JsString (v : JsValue) (s : string) :
  strictEquals v (JsString s) = true <-> v = JsString s.
Proof.
  destruct v as [| |b|n|x]; simpl; try (split; [discriminate|discriminate]).
  destruct (String.eqb_spec x s) as [->|Hne]; split; congruence.
Qed.

(** C10.  The resolver is in default-inactive mode exactly when the
    activation setting is the string [nowhere-except-included]; every
    other value, a string or not, leaves it in default-active mode. *)
Theorem isActiveByDefault_only_one_string (h : Host) :
  (eval isActiveByDefault h = false
   <-> activation (settings h) = JsString "nowhere-except-included")
  /\ (eval isActiveByDefault h = true
      <-> activation (settings h) <> JsString "nowhere-except-included").
Proof.
  change (eval isActiveByDefault h)
    with (negb (strictEquals (activation (settings h))
                             (JsString "nowhere-except-included"))).
  pose proof (strictEquals_JsString (activation (settings h))
                "nowhere-except-included") as Hs.
  destruct (strictEquals _ _); simpl.
  - assert (activation (settings h) = JsString "nowhere-except-included")
      as Hyes by (apply Hs; reflexivity).
    intuition congruence.
  - assert (activation (settings h) <> JsString "nowhere-except-included")
      as Hnot by (intros E; apply Hs in E; discriminate E).
    intuition congruence.
Qed.

(** ** Activate and deactivate *)

Lemma activateInWorkspace_exec (h : Host) :
  let uri := eval getWorkspaceUri h in
  let s := settings h in
  exists msg,
    exec activateInWorkspace h =
    if truthy uri then
      withSettings
        (if eval isActiveByDefault h then
           updateSettingValue autoclosetabs_excludedWorkspaces
             (filter (fun x => x <> default "" uri) (excludedWorkspaces s)) s
         else
           updateSettingValue autoclosetabs_includedWorkspaces
             (includedWorkspaces s ++ [default "" uri]) s)
        (withCalls (calls h ++ [Log msg]) h)
    else
      withCalls
        (calls h ++ [Log msg; ShowInformationMessage
           "Auto Close Tabs cannot be activated in a temporary workspace."]) h.
Proof.
  intros uri s. unfold activateInWorkspace. rewrite exec_bind. fold uri.
  destruct (getWorkspaceUri_exec h) as [msg E]. rewrite E. exists msg.
  destruct (truthy uri); simpl negb; cbv iota.
  - rewrite exec_bind.
    change (eval isActiveByDefault (withCalls _ h)) with (eval isActiveByDefault h).
    destruct (eval isActiveByDefault h); reflexivity.
  - unfold showInformationMessage, emit, modify, exec, withCalls; simpl.
    rewrite <- app_assoc. reflexivity.
Qed.

Lemma deactivateInWorkspace_exec (h : Host) :
  let uri := eval getWorkspaceUri h in
  let s := settings h in
  exists msg,
    exec deactivateInWorkspace h =
    if truthy uri then
      withSettings
        (if eval isActiveByDefault h then
           updateSettingValue autoclosetabs_excludedWorkspaces
             (excludedWorkspaces s ++ [default "" uri]) s
         else
           updateSettingValue autoclosetabs_includedWorkspaces
             (filter (fun x => x <> default "" uri) (includedWorkspaces s)) s)
        (withCalls (calls h ++ [Log msg]) h)
    else
      withCalls
        (calls h ++ [Log msg; ShowInformationMessage
           "Auto Close Tabs cannot be deactivated in a temporary workspace."]) h.
Proof.
  intros uri s. unfold deactivateInWorkspace. rewrite exec_bind. fold uri.
  destruct (getWorkspaceUri_exec h) as [msg E]. rewrite E. exists msg.
  destruct (truthy uri); simpl negb; cbv iota.
  - rewrite exec_bind.
    change (eval isActiveByDefault (withCalls _ h)) with (eval isActiveByDefault h).
    destruct (eval isActiveByDefault h); reflexivity.
  - unfold showInformationMessage, emit, modify, exec, withCalls; simpl.
    rewrite <- app_assoc. reflexivity.
Qed.

Lemma callsOf_app {A} (m : M A) (h : Host) (cs : list Call) :
  calls (exec m h) = calls h ++ cs -> callsOf m h = cs.
Proof. intros E. unfold callsOf. rewrite E. apply drop_app_length. Qed.

(** C6.  Without a resolvable workspace identifier, [activate()] and
    [deactivate()] change neither override list nor any other setting:
    the only thing each does is log the resolution and show its notice
    that the action cannot be applied. *)
Theorem no_identifier_notice_and_no_mutation (h : Host) :
  truthy (eval getWorkspaceUri h) = false ->
  (settings (exec activateInWorkspace h) = settings h
   /\ exists msg,
        exec activateInWorkspace h =
        withCalls (calls h ++ [Log msg; ShowInformationMessage
          "Auto Close Tabs cannot be activated in a temporary workspace."]) h)
  /\ (settings (exec deactivateInWorkspace h) = settings h
      /\ exists msg,
           exec deactivateInWorkspace h =
           withCalls (calls h ++ [Log msg; ShowInformationMessage
             "Auto Close Tabs cannot be deactivated in a temporary workspace."]) h).
Proof.
  intros Hno.
  destruct (activateInWorkspace_exec h) as [m1 E1].
  destruct (deactivateInWorkspace_exec h) as [m2 E2].
  cbv zeta in E1, E2. rewrite Hno in E1, E2.
  split; split.
  - rewrite E1. reflexivity.
  - exists m1. exact E1.
  - rewrite E2. reflexivity.
  - exists m2. exact E2.
Qed.

Lemma no_identifier_notice_and_no_mutation_witness :
  settings (exec activateInWorkspace (temporary JsUndefined [W1] [])) =
  settings (temporary JsUndefined [W1] [])
  /\ settings (exec deactivateInWorkspace (temporary JsUndefined [W1] [])) =
     settings (temporary JsUndefined [W1] []).
Proof.
  pose proof (no_identifier_notice_and_no_mutation
                (temporary JsUndefined [W1] []) eq_refl)
    as ((Ha & _) & (Hd & _)).
  split; [exact Ha | exact Hd].
Defined.

(** What the two appending branches do to a resolvable identifier. *)
Lemma deactivateInWorkspace_settings (h : Host) (w : string) :
  eval getWorkspaceUri h = Some w -> w <> "" ->
  settings (exec deactivateInWorkspace h) =
  if eval isActiveByDefault h then
    updateSettingValue autoclosetabs_excludedWorkspaces
      (excludedWorkspaces (settings h) ++ [w]) (settings h)
  else
    updateSettingValue autoclosetabs_includedWorkspaces
      (filter (fun x => x <> w) (includedWorkspaces (settings h))) (settings h).
Proof.
  intros Hw Hne. destruct (deactivateInWorkspace_exec h) as [msg E].
  cbv zeta in E. rewrite Hw in E. apply truthy_Some in Hne. rewrite Hne in E.
  rewrite E. reflexivity.
Qed.

Lemma activateInWorkspace_settings (h : Host) (w : string) :
  eval getWorkspaceUri h = Some w -> w <> "" ->
  settings (exec activateInWorkspace h) =
  if eval isActiveByDefault h then
    updateSettingValue autoclosetabs_excludedWorkspaces
      (filter (fun x => x <> w) (excludedWorkspaces (settings h))) (settings h)
  else
    updateSettingValue autoclosetabs_includedWorkspaces
      (includedWorkspaces (settings h) ++ [w]) (settings h).
Proof.
  intros Hw Hne. destruct (activateInWorkspace_exec h) as [msg E].
  cbv zeta in E. rewrite Hw in E. apply truthy_Some in Hne. rewrite Hne in E.
  rewrite E. reflexivity.
Qed.

Lemma NoDup_snoc_iff (l : list string) (w : string) :
  NoDup (l ++ [w]) <-> NoDup l /\ w ∉ l.
Proof.
  rewrite NoDup_app. split.
  - intros (Hl & Hd & _). split; [exact Hl|].
    intros Hin. apply (Hd w Hin). left.
  - intros (Hl & Hout). split; [exact Hl|]. split.
    + intros x Hx Hxw. apply list_elem_of_singleton in Hxw. congruence.
    + apply NoDup_singleton.
Qed.

(** C2, as stated, fails: [deactivate()] in default-active
    mode is not a no-op on a list that already holds the identifier. *)
Lemma deactivate_present_counterexample :
  ~ (forall (h : Host) (w : string),
        eval getWorkspaceUri h = Some w -> w <> "" ->
        eval isActiveByDefault h = true ->
        w ∈ excludedWorkspaces (settings h) ->
        excludedWorkspaces (settings (exec deactivateInWorkspace h))
        = excludedWorkspaces (settings h)).
Proof.
  intros H.
  specialize (H (inW1 JsUndefined [W1] []) W1 eq_refl).
  assert (excludedWorkspaces
            (settings (exec deactivateInWorkspace (inW1 JsUndefined [W1] [])))
          = [W1; W1]) as E by reflexivity.
  rewrite E in H.
  assert ([W1; W1] = [W1]) as Habs.
  { apply H; [discriminate | reflexivity | left]. }
  discriminate Habs.
Qed.

(** C2, amended.  For a resolvable identifier, [deactivate()] in
    default-active mode appends it to excluded-workspaces and [activate()]
    in default-inactive mode appends it to included-workspaces, whether or
    not it is already there; the other list is left alone.  The list is
    free of duplicates afterwards exactly when it was free of duplicates
    and did not hold the identifier before. *)
Theorem override_lists_append (h : Host) (w : string) :
  eval getWorkspaceUri h = Some w -> w <> "" ->
  (eval isActiveByDefault h = true ->
   let s' := settings (exec deactivateInWorkspace h) in
   excludedWorkspaces s' = excludedWorkspaces (settings h) ++ [w]
   /\ includedWorkspaces s' = includedWorkspaces (settings h)
   /\ (NoDup (excludedWorkspaces s')
       <-> NoDup (excludedWorkspaces (settings h))
           /\ w ∉ excludedWorkspaces (settings h)))
  /\ (eval isActiveByDefault h = false ->
      let s' := settings (exec activateInWorkspace h) in
      includedWorkspaces s' = includedWorkspaces (settings h) ++ [w]
      /\ excludedWorkspaces s' = excludedWorkspaces (settings h)
      /\ (NoDup (includedWorkspaces s')
          <-> NoDup (includedWorkspaces (settings h))
              /\ w ∉ includedWorkspaces (settings h))).
Proof.
  intros Hw Hne. split; intros Hmode s'; subst s'.
  - rewrite (deactivateInWorkspace_settings h w Hw Hne), Hmode. simpl.
    split; [reflexivity|]. split; [reflexivity|]. apply NoDup_snoc_iff.
  - rewrite (activateInWorkspace_settings h w Hw Hne), Hmode. simpl.
    split; [reflexivity|]. split; [reflexivity|]. apply NoDup_snoc_iff.
Qed.

Lemma override_lists_append_witness :
  excludedWorkspaces
    (settings (exec deactivateInWorkspace (inW1 JsUndefined [W1] [])))
  = [W1; W1]
  /\ includedWorkspaces
       (settings (exec activateInWorkspace
                    (inW1 (JsString "nowhere-except-included") [] [])))
     = [W1].
Proof.
  assert (W1 <> "") as Hne by discriminate.
  pose proof (override_lists_append (inW1 JsUndefined [W1] []) W1
                eq_refl Hne) as (Hd & _).
  pose proof (override_lists_append
                (inW1 (JsString "nowhere-except-included") [] []) W1
                eq_refl Hne) as (_ & Ha).
  split.
  - exact (proj1 (Hd eq_refl)).
  - exact (proj1 (Ha eq_refl)).
Defined.

(** ** Activate, then deactivate *)

Lemma filter_ne_snoc (l : list string) (w : string) :
  filter (fun x => x <> w) (l ++ [w]) = filter (fun x => x <> w) l.
Proof.
  rewrite filter_app, filter_cons_False, filter_nil by (intros H; apply H; reflexivity).
  apply app_nil_r.
Qed.

Lemma filter_ne_absent (l : list string) (w : string) :
  w ∉ l -> filter (fun x => x <> w) l = l.
Proof.
  induction l as [|x r IH]; intros Hout; [reflexivity|].
  apply not_elem_of_cons in Hout as [Hne Hr].
  rewrite filter_cons_True by congruence. rewrite IH by exact Hr. reflexivity.
Qed.

Lemma filter_eq_replicate (l : list string) (w : string) :
  filter (fun x => x = w) l
  = replicate (length (filter (fun x => x = w) l)) w.
Proof.
  induction l as [|x r IH]; [reflexivity|].
  destruct (decide (x = w)) as [->|Hne].
  - rewrite filter_cons_True by reflexivity. simpl. f_equal. exact IH.
  - rewrite filter_cons_False by exact Hne. exact IH.
Qed.

Lemma filter_eq_of_filter_ne (l : list string) (w : string) :
  filter (fun x => x = w) (filter (fun x => x <> w) l) = [].
Proof.
  induction l as [|x r IH]; [reflexivity|].
  destruct (decide (x = w)) as [->|Hne].
  - rewrite (filter_cons_False (fun x => x <> w)) by (intros H; apply H; reflexivity).
    exact IH.
  - rewrite (filter_cons_True (fun x => x <> w)) by exact Hne.
    rewrite filter_cons_False by exact Hne. exact IH.
Qed.

(** Taking every [w] out and putting one back gives the list again, up to
    order, exactly when it held [w] once. *)
Lemma remove_then_append_perm (l : list string) (w : string) :
  filter (fun x => x <> w) l ++ [w] ≡ₚ l
  <-> length (filter (fun x => x = w) l) = 1%nat.
Proof.
  split.
  - intros Hp.
    apply (filter_Permutation (fun x => x = w)) in Hp.
    apply Permutation_length in Hp.
    rewrite filter_app, filter_eq_of_filter_ne in Hp.
    rewrite filter_cons_True, filter_nil in Hp by reflexivity.
    simpl in Hp. symmetry. exact Hp.
  - intros Hone.
    rewrite <- (filter_app_complement (fun x => x = w) l) at 2.
    rewrite (filter_eq_replicate l w), Hone. simpl.
    apply Permutation_app_comm.
Qed.

(** Appending [w] and taking every [w] out gives the list again, up to
    order, exactly when it did not hold [w]. *)
Lemma append_then_remove_perm (l : list string) (w : string) :
  filter (fun x => x <> w) (l ++ [w]) ≡ₚ l <-> w ∉ l.
Proof.
  rewrite filter_ne_snoc. split.
  - intros Hp Hin. rewrite <- Hp in Hin.
    apply list_elem_of_filter in Hin as [Hne _]. apply Hne. reflexivity.
  - intros Hout. rewrite (filter_ne_absent l w Hout). reflexivity.
Qed.

Lemma activateThenDeactivate_settings (h : Host) (w : string) :
  eval getWorkspaceUri h = Some w -> w <> "" ->
  settings (exec activateThenDeactivate h) =
  if eval isActiveByDefault h then
    updateSettingValue autoclosetabs_excludedWorkspaces
      (filter (fun x => x <> w) (excludedWorkspaces (settings h)) ++ [w])
      (settings h)
  else
    updateSettingValue autoclosetabs_includedWorkspaces
      (filter (fun x => x <> w) (includedWorkspaces (settings h) ++ [w]))
      (settings h).
Proof.
  intros Hw Hne. unfold activateThenDeactivate. rewrite exec_bind.
  cbn [registerCommands].
  set (h1 := exec activateInWorkspace h).
  assert (eval getWorkspaceUri h1 = Some w) as Hw1.
  { rewrite <- Hw. subst h1.
    destruct (activateInWorkspace_exec h) as [msg E]. cbv zeta in E.
    rewrite E. apply getWorkspaceUri_eval_ext;
      destruct (truthy (eval getWorkspaceUri h)); reflexivity. }
  pose proof (activateInWorkspace_settings h w Hw Hne) as Hs1. fold h1 in Hs1.
  rewrite (deactivateInWorkspace_settings h1 w Hw1 Hne).
  change (eval isActiveByDefault h1)
    with (negb (strictEquals (activation (settings h1))
                             (JsString "nowhere-except-included"))).
  rewrite Hs1.
  change (eval isActiveByDefault h)
    with (negb (strictEquals (activation (settings h))
                             (JsString "nowhere-except-included"))).
  destruct (negb (strictEquals (activation (settings h)) _)) eqn:Hmode;
    simpl; rewrite Hmode; reflexivity.
Qed.

(** C3, as stated, fails: in default-active mode with an
    empty excluded-workspaces list, [activate()] then [deactivate()] ends
    with the current workspace excluded. *)
Lemma activate_deactivate_counterexample :
  ~ (forall (h : Host) (w : string),
        eval getWorkspaceUri h = Some w -> w <> "" ->
        excludedWorkspaces (settings (exec activateThenDeactivate h))
          ≡ₚ excludedWorkspaces (settings h)
        /\ includedWorkspaces (settings (exec activateThenDeactivate h))
             ≡ₚ includedWorkspaces (settings h)).
Proof.
  intros H.
  assert (W1 <> "") as Hne by discriminate.
  destruct (H (inW1 JsUndefined [] []) W1 eq_refl Hne) as [Hex _].
  assert (excludedWorkspaces
            (settings (exec activateThenDeactivate (inW1 JsUndefined [] [])))
          = [W1]) as E by reflexivity.
  rewrite E in Hex. simpl in Hex.
  apply Permutation_length in Hex. discriminate Hex.
Qed.

(** C3, amended.  For a resolvable identifier, [activate()] followed by
    [deactivate()] never touches the list of the other mode.  In
    default-active mode it leaves excluded-workspaces with its original
    contents, up to order, exactly when the identifier occurred in it
    once; in default-inactive mode it leaves included-workspaces with its
    original contents exactly when the identifier did not occur in it. *)
Theorem activate_deactivate_round_trip (h : Host) (w : string) :
  eval getWorkspaceUri h = Some w -> w <> "" ->
  let s := settings h in
  let s' := settings (exec activateThenDeactivate h) in
  (eval isActiveByDefault h = true ->
   includedWorkspaces s' = includedWorkspaces s
   /\ (excludedWorkspaces s' ≡ₚ excludedWorkspaces s
       <-> length (filter (fun x => x = w) (excludedWorkspaces s)) = 1%nat))
  /\ (eval isActiveByDefault h = false ->
      excludedWorkspaces s' = excludedWorkspaces s
      /\ (includedWorkspaces s' ≡ₚ includedWorkspaces s
          <-> w ∉ includedWorkspaces s)).
Proof.
  intros Hw Hne s s'. subst s s'.
  rewrite (activateThenDeactivate_settings h w Hw Hne).
  split; intros ->; simpl; (split; [reflexivity|]).
  - apply remove_then_append_perm.
  - apply append_then_remove_perm.
Qed.

Lemma activate_deactivate_round_trip_witness :
  includedWorkspaces
    (settings (exec activateThenDeactivate (inW1 JsUndefined [W1] []))) = []
  /\ excludedWorkspaces
       (settings (exec activateThenDeactivate
                    (inW1 (JsString "nowhere-except-included") [] []))) = [].
Proof.
  assert (W1 <> "") as Hne by discriminate.
  pose proof (activate_deactivate_round_trip (inW1 JsUndefined [W1] []) W1
                eq_refl Hne) as (Hact & _).
  pose proof (activate_deactivate_round_trip
                (inW1 (JsString "nowhere-except-included") [] []) W1
                eq_refl Hne) as (_ & Hinact).
  split.
  - exact (proj1 (Hact eq_refl)).
  - exact (proj1 (Hinact eq_refl)).
Defined.

(** ** The closing policy *)

Section Youngest.
Variable ledger : gmap Tab Z.

Lemma youngest_None (tabs : list Tab) :
  youngest ledger tabs = None -> forall u, u ∈ tabs -> ledger !! u = None.
Proof.
  induction tabs as [|x r IH]; intros Hy u Hu.
  - apply elem_of_nil in Hu. destruct Hu.
  - cbn [youngest] in Hy.
    destruct (ledger !! x) as [ax|] eqn:Hx.
    + destruct (youngest ledger r) as [[t' a']|]; [|discriminate Hy].
      destruct (a' <? ax); discriminate Hy.
    + apply elem_of_cons in Hu as [->|Hu]; [exact Hx | exact (IH Hy u Hu)].
Qed.

(** [youngest] splits the list at the first tab of least age. *)
Lemma youngest_Some (tabs : list Tab) (t : Tab) (a : Z) :
  youngest ledger tabs = Some (t, a) ->
  exists pre post,
    tabs = pre ++ t :: post
    /\ ledger !! t = Some a
    /\ (forall u b, u ∈ pre -> ledger !! u = Some b -> a < b)
    /\ (forall u b, u ∈ post -> ledger !! u = Some b -> a <= b).
Proof.
  revert t a. induction tabs as [|x r IH]; intros t a Hy; [discriminate Hy|].
  cbn [youngest] in Hy.
  destruct (ledger !! x) as [ax|] eqn:Hx.
  - destruct (youngest ledger r) as [[t' a']|] eqn:Hr.
    + destruct (IH t' a' eq_refl) as (pre & post & -> & Ht' & Hpre & Hpost).
      destruct (Z.ltb_spec a' ax) as [Hlt|Hge]; injection Hy as <- <-.
      * exists (x :: pre), post. repeat split; try assumption.
        intros u b Hu Hb. apply elem_of_cons in Hu as [->|Hu].
        -- rewrite Hx in Hb. injection Hb as <-. exact Hlt.
        -- exact (Hpre u b Hu Hb).
      * exists [], (pre ++ t' :: post). repeat split; try assumption.
        -- intros u b Hu. apply elem_of_nil in Hu. destruct Hu.
        -- intros u b Hu Hb. apply elem_of_app in Hu as [Hu|Hu].
           ++ pose proof (Hpre u b Hu Hb). lia.
           ++ apply elem_of_cons in Hu as [->|Hu].
              ** rewrite Ht' in Hb. injection Hb as <-. exact Hge.
              ** pose proof (Hpost u b Hu Hb). lia.
    + injection Hy as <- <-. exists [], r. repeat split; try assumption.
      * intros u b Hu. apply elem_of_nil in Hu. destruct Hu.
      * intros u b Hu Hb. rewrite (youngest_None r Hr u Hu) in Hb.
        discriminate Hb.
  - destruct (IH t a Hy) as (pre & post & -> & Ht & Hpre & Hpost).
    exists (x :: pre), post. repeat split; try assumption.
    intros u b Hu Hb. apply elem_of_cons in Hu as [->|Hu].
    + rewrite Hx in Hb. discriminate Hb.
    + exact (Hpre u b Hu Hb).
Qed.

Lemma removeFirst_split (pre post : list Tab) (t : Tab) :
  t ∉ pre -> removeFirst t (pre ++ t :: post) = pre ++ post.
Proof.
  induction pre as [|x r IH]; intros Hout; cbn [removeFirst app].
  - rewrite decide_True by reflexivity. reflexivity.
  - apply not_elem_of_cons in Hout as [Hne Hr].
    rewrite decide_False by congruence. rewrite (IH Hr). reflexivity.
Qed.
End Youngest.

Lemma filter_fixed_all {A} (P : A -> Prop) `{!forall x, Decision (P x)}
    (l : list A) :
  filter P l = l -> forall x, x ∈ l -> P x.
Proof.
  intros Hfix x Hx. rewrite <- Hfix in Hx.
  apply list_elem_of_filter in Hx as [HP _]. exact HP.
Qed.

Lemma filter_moved_some {A} (P : A -> Prop) `{!forall x, Decision (P x)}
    (l : list A) :
  filter P l <> l -> exists x, x ∈ l /\ ~ P x.
Proof.
  induction l as [|x r IH]; intros Hne.
  - destruct Hne. reflexivity.
  - destruct (decide (P x)) as [HP|HnP].
    + rewrite filter_cons_True in Hne by exact HP.
      destruct IH as (y & Hy & HnPy); [congruence|].
      exists y. split; [right; exact Hy | exact HnPy].
    + exists x. split; [left | exact HnP].
Qed.

Lemma isCandidate_age (threshold : Z) (ledger : gmap Tab Z) (tab : Tab) :
  isCandidate threshold ledger tab ->
  exists age, ledger !! tab = Some age /\ threshold <= age.
Proof.
  unfold isCandidate. destruct (ledger !! tab) as [age|]; intros H.
  - exists age. split; [reflexivity|]. apply Z.leb_le, Is_true_true, H.
  - destruct H.
Qed.

(** When every open tab is a candidate, the pass spares the first tab of
    least age and selects all the others. *)
Lemma selectToClose_all_candidates (threshold : Z) (ledger : gmap Tab Z)
    (tabs : list Tab) :
  filter (fun tab => isCandidate threshold ledger tab) tabs = tabs ->
  tabs <> [] ->
  exists pre survivor age post,
    tabs = pre ++ survivor :: post
    /\ selectToClose threshold ledger tabs = pre ++ post
    /\ ledger !! survivor = Some age
    /\ (forall u, u ∈ pre -> exists b, ledger !! u = Some b /\ age < b)
    /\ (forall u, u ∈ post -> exists b, ledger !! u = Some b /\ age <= b).
Proof.
  intros Hall Hne.
  pose proof (filter_fixed_all _ tabs Hall) as Hcand.
  unfold selectToClose. rewrite Hall.
  rewrite bool_decide_eq_true_2 by reflexivity.
  destruct (youngest ledger tabs) as [[t a]|] eqn:Hy.
  - destruct (youngest_Some ledger tabs t a Hy)
      as (pre & post & -> & Ht & Hpre & Hpost).
    exists pre, t, a, post.
    assert (t ∉ pre) as Hout.
    { intros Hin. pose proof (Hpre t a Hin Ht). lia. }
    rewrite (removeFirst_split pre post t Hout).
    split; [reflexivity|]. split; [reflexivity|]. split; [exact Ht|].
    split; intros u Hu.
    + destruct (isCandidate_age threshold ledger u) as (b & Hb & _).
      { apply Hcand, elem_of_app. left. exact Hu. }
      exists b. split; [exact Hb | exact (Hpre u b Hu Hb)].
    + destruct (isCandidate_age threshold ledger u) as (b & Hb & _).
      { apply Hcand, elem_of_app. right. right. exact Hu. }
      exists b. split; [exact Hb | exact (Hpost u b Hu Hb)].
  - destruct tabs as [|x r]; [destruct Hne; reflexivity|].
    destruct (isCandidate_age threshold ledger x) as (b & Hb & _).
    { apply Hcand. left. }
    rewrite (youngest_None ledger (x :: r) Hy x) in Hb by left.
    discriminate Hb.
Qed.

(** Otherwise the candidates are selected as they are, and a tab that is
    not a candidate stays open. *)
Lemma selectToClose_some_spared (threshold : Z) (ledger : gmap Tab Z)
    (tabs : list Tab) :
  filter (fun tab => isCandidate threshold ledger tab) tabs <> tabs ->
  selectToClose threshold ledger tabs
  = filter (fun tab => isCandidate threshold ledger tab) tabs
  /\ exists spared, spared ∈ tabs
       /\ (spared ∉ selectToClose threshold ledger tabs)
       /\ (length (selectToClose threshold ledger tabs) < length tabs)%nat.
Proof.
  intros Hne. unfold selectToClose.
  rewrite bool_decide_eq_false_2 by exact Hne.
  split; [reflexivity|].
  destruct (filter_moved_some _ tabs Hne) as (x & Hx & HnP).
  exists x. split; [exact Hx|]. split.
  - intros Hin. apply list_elem_of_filter in Hin as [HP _]. exact (HnP HP).
  - exact (length_filter_lt _ tabs x Hx HnP).
Qed.

Lemma closeTabs_exec (threshold : Z) (h : Host) :
  exec (closeTabs threshold) h =
  withCalls (calls h ++ [CloseTabs threshold;
                         CloseRequest (selectToClose threshold
                                         (tabTimeCounters h) (openTabs h))]) h.
Proof.
  unfold closeTabs, exec, bind, emit, modify, gets, withCalls, openTabs; simpl.
  rewrite <- app_assoc. reflexivity.
Qed.

Lemma closeTabs_calls (threshold : Z) (h : Host) :
  callsOf (closeTabs threshold) h =
  [CloseTabs threshold;
   CloseRequest (selectToClose threshold (tabTimeCounters h) (openTabs h))].
Proof. apply callsOf_app. rewrite closeTabs_exec. reflexivity. Qed.

(** C4.  A closing pass over at least one open tab requests the closing of
    strictly fewer tabs than are open, whatever the threshold and the
    ledger, so that, tab identities being distinct, a tab remains open.
    When every open tab is a candidate, the tab spared is the first one of
    least age: the tabs before it are strictly older, the tabs after it are
    at least as old, all of those are closed, and the spared tab is not. *)
Theorem closing_pass_spares_a_tab (threshold : Z) (h : Host) :
  openTabs h <> [] ->
  exists closed,
    callsOf (closeTabs threshold) h = [CloseTabs threshold; CloseRequest closed]
    /\ (length closed < length (openTabs h))%nat
    /\ (NoDup (openTabs h) -> remainingOpen (openTabs h) closed <> [])
    /\ (filter (fun tab => isCandidate threshold (tabTimeCounters h) tab)
               (openTabs h) = openTabs h ->
        exists pre survivor age post,
          openTabs h = pre ++ survivor :: post
          /\ closed = pre ++ post
          /\ (NoDup (openTabs h) -> survivor ∉ closed)
          /\ tabTimeCounters h !! survivor = Some age
          /\ (forall u, u ∈ pre ->
                exists b, tabTimeCounters h !! u = Some b /\ age < b)
          /\ (forall u, u ∈ post ->
                exists b, tabTimeCounters h !! u = Some b /\ age <= b)).
Proof.
  intros Hopen.
  exists (selectToClose threshold (tabTimeCounters h) (openTabs h)).
  split; [apply closeTabs_calls|].
  destruct (decide (filter (fun tab => isCandidate threshold (tabTimeCounters h) tab)
                           (openTabs h) = openTabs h)) as [Hall|Hsome].
  - destruct (selectToClose_all_candidates threshold _ _ Hall Hopen)
      as (pre & t & a & post & Etabs & Esel & Ht & Hpre & Hpost).
    assert (NoDup (openTabs h) -> t ∉ pre ++ post) as Hout.
    { intros Hnd. rewrite Etabs in Hnd.
      apply NoDup_app in Hnd as (_ & Hdis & Hnd).
      apply NoDup_cons in Hnd as [Hpost' _].
      intros Hin. apply elem_of_app in Hin as [Hin|Hin].
      - apply (Hdis t Hin). left.
      - exact (Hpost' Hin). }
    split; [|split].
    + rewrite Esel, Etabs, !length_app. simpl. lia.
    + intros Hnd Hempty. rewrite Esel in Hempty.
      apply (filter_nil_not_elem_of _ _ t Hempty (Hout Hnd)).
      rewrite Etabs. apply elem_of_app. right. left.
    + intros _. exists pre, t, a, post.
      split; [exact Etabs|]. split; [exact Esel|].
      split; [rewrite Esel; exact Hout|].
      split; [exact Ht|]. split; [exact Hpre | exact Hpost].
  - destruct (selectToClose_some_spared threshold _ _ Hsome)
      as (Esel & x & Hx & Hout & Hlen).
    split; [exact Hlen|]. split.
    + intros _ Hempty.
      exact (filter_nil_not_elem_of _ _ x Hempty Hout Hx).
    + intros Hall. destruct (Hsome Hall).
Qed.

Example closeUnusedTabs_demo :
  callsOf (closeTabs 0) demo = [CloseTabs 0; CloseRequest ["a.ts"; "c.ts"]].
Proof. vm_compute. reflexivity. Qed.

Lemma closing_pass_spares_a_tab_witness :
  exists closed,
    callsOf (closeTabs 0) demo = [CloseTabs 0; CloseRequest closed]
    /\ (length closed < length (openTabs demo))%nat.
Proof.
  assert (openTabs demo <> []) as Hopen by discriminate.
  destruct (closing_pass_spares_a_tab 0 demo Hopen) as (closed & Hc & Hl & _).
  exists closed. split; [exact Hc | exact Hl].
Defined.

(** ** The timer tick *)

Lemma forEach_app {A} (f : A -> M unit) (xs ys : list A) (h : Host) :
  exec (forEach f (xs ++ ys)) h = exec (forEach f ys) (exec (forEach f xs) h).
Proof.
  revert h. induction xs as [|x r IH]; intros h; [reflexivity|].
  cbn [app forEach]. rewrite !exec_bind. apply IH.
Qed.

Lemma forEach_concat {A} (f : A -> M unit) (xss : list (list A)) (h : Host) :
  exec (forEach (fun xs => forEach f xs) xss) h = exec (forEach f (concat xss)) h.
Proof.
  revert h. induction xss as [|xs r IH]; intros h; [reflexivity|].
  cbn [concat forEach]. rewrite exec_bind, forEach_app. apply IH.
Qed.

Lemma forEach_incrementTabTimeCounter (tabs : list Tab) (h : Host) :
  exec (forEach incrementTabTimeCounter tabs) h =
  withTabTimeCounters (incremented tabs (tabTimeCounters h))
    (withCalls (calls h ++ (IncrementTabTimeCounter <$> tabs)) h).
Proof.
  revert h. induction tabs as [|t r IH]; intros h.
  - destruct h. unfold exec, withTabTimeCounters, withCalls; simpl.
    rewrite app_nil_r. reflexivity.
  - cbn [forEach]. rewrite exec_bind, IH.
    unfold incrementTabTimeCounter, exec, bind, emit, modify,
      withTabTimeCounters, withCalls; simpl.
    rewrite <- app_assoc. reflexivity.
Qed.

Lemma incrementAll_exec (h : Host) :
  exec incrementAll h =
  withTabTimeCounters (incremented (openTabs h) (tabTimeCounters h))
    (withCalls (calls h ++ (IncrementTabTimeCounter <$> openTabs h)) h).
Proof.
  unfold incrementAll. rewrite exec_bind.
  change (exec (gets tabGroups) h) with h.
  change (eval (gets tabGroups) h) with (tabGroups h).
  rewrite (forEach_concat incrementTabTimeCounter).
  apply forEach_incrementTabTimeCounter.
Qed.

Lemma intervalCallback_phases (h : Host) :
  exec intervalCallback h = exec closeIfActive (exec incrementAll h).
Proof.
  unfold intervalCallback, incrementAll, closeIfActive.
  rewrite !exec_bind. reflexivity.
Qed.

Lemma incremented_absent (tabs : list Tab) (ledger : gmap Tab Z) (t : Tab) :
  t ∉ tabs -> incremented tabs ledger !! t = ledger !! t.
Proof.
  revert ledger. induction tabs as [|x r IH]; intros ledger Hout; [reflexivity|].
  apply not_elem_of_cons in Hout as [Hne Hr].
  cbn [incremented foldl]. fold (incremented r (alter Z.succ x ledger)).
  rewrite (IH _ Hr). apply lookup_alter_ne. congruence.
Qed.

Lemma incremented_once (tabs : list Tab) (ledger : gmap Tab Z) (t : Tab) :
  NoDup tabs -> t ∈ tabs ->
  incremented tabs ledger !! t = Z.succ <$> ledger !! t.
Proof.
  revert ledger. induction tabs as [|x r IH]; intros ledger Hnd Hin.
  - apply elem_of_nil in Hin. destruct Hin.
  - apply NoDup_cons in Hnd as [Hx Hr].
    cbn [incremented foldl]. fold (incremented r (alter Z.succ x ledger)).
    apply elem_of_cons in Hin as [->|Hin].
    + rewrite (incremented_absent r _ x Hx). apply lookup_alter_eq.
    + rewrite (IH _ Hr Hin). rewrite lookup_alter_ne; [reflexivity|].
      intros ->. exact (Hx Hin).
Qed.

Lemma isActiveInWorkspace_exec (h : Host) :
  exists msg, exec isActiveInWorkspace h = withCalls (calls h ++ [Log msg]) h.
Proof.
  unfold isActiveInWorkspace. rewrite exec_bind.
  destruct (getWorkspaceUri_exec h) as [msg E]. rewrite E. exists msg.
  rewrite exec_bind.
  destruct (eval isActiveByDefault _), (negb (truthy (eval getWorkspaceUri h)));
    reflexivity.
Qed.

(** The resolver reads the workspace and the settings only. *)
Lemma isActiveInWorkspace_eval_ext (h h' : Host) :
  workspaceFile h = workspaceFile h' ->
  workspaceFolders h = workspaceFolders h' ->
  settings h = settings h' ->
  eval isActiveInWorkspace h = eval isActiveInWorkspace h'.
Proof.
  intros Hf Hd Hs. rewrite !isActiveInWorkspace_eval.
  rewrite (getWorkspaceUri_eval_ext h h' Hf Hd).
  change (eval isActiveByDefault h)
    with (negb (strictEquals (activation (settings h))
                             (JsString "nowhere-except-included"))).
  rewrite Hs. reflexivity.
Qed.

Lemma closeIfActive_exec (h : Host) :
  exists msg,
    exec closeIfActive h = withCalls (calls h ++ [Log msg] ++ closingCalls h) h.
Proof.
  unfold closeIfActive, closingCalls. rewrite exec_bind.
  destruct (isActiveInWorkspace_exec h) as [msg E]. rewrite E. exists msg.
  destruct (eval isActiveInWorkspace h).
  - rewrite exec_bind.
    change (eval (readSetting autoclosetabs_tabAgeForAutomaticClosing : M Z)
                 (withCalls (calls h ++ [Log msg]) h))
      with (tabAgeForAutomaticClosing (settings h)).
    change (exec (readSetting autoclosetabs_tabAgeForAutomaticClosing : M Z)
                 (withCalls (calls h ++ [Log msg]) h))
      with (withCalls (calls h ++ [Log msg]) h).
    rewrite closeTabs_exec. unfold withCalls; simpl.
    rewrite <- app_assoc. reflexivity.
  - reflexivity.
Qed.

Lemma intervalCallback_calls (h : Host) :
  exists msg,
    callsOf intervalCallback h =
    (IncrementTabTimeCounter <$> openTabs h) ++ [Log msg]
      ++ closingCalls (exec incrementAll h).
Proof.
  destruct (closeIfActive_exec (exec incrementAll h)) as [msg E].
  exists msg. apply callsOf_app.
  rewrite intervalCallback_phases, E, incrementAll_exec.
  unfold withCalls, withTabTimeCounters; simpl.
  rewrite <- app_assoc. reflexivity.
Qed.

Lemma closingCalls_after_increments (h : Host) :
  closingCalls (exec incrementAll h) =
  if eval isActiveInWorkspace h then
    [CloseTabs (tabAgeForAutomaticClosing (settings h));
     CloseRequest (selectToClose (tabAgeForAutomaticClosing (settings h))
                     (incremented (openTabs h) (tabTimeCounters h))
                     (openTabs h))]
  else [].
Proof.
  unfold closingCalls.
  rewrite (isActiveInWorkspace_eval_ext (exec incrementAll h) h)
    by (rewrite incrementAll_exec; reflexivity).
  rewrite incrementAll_exec. reflexivity.
Qed.

Lemma IncrementTabTimeCounter_not_closing (h : Host) (t : Tab) :
  IncrementTabTimeCounter t ∉ closingCalls h.
Proof.
  unfold closingCalls. destruct (eval isActiveInWorkspace h).
  - intros Hin. repeat (apply elem_of_cons in Hin as [Hin|Hin]; [discriminate Hin|]).
    apply elem_of_nil in Hin. exact Hin.
  - apply not_elem_of_nil.
Qed.

(** C7.  A tick first calls [incrementTabTimeCounter] on each tab of each
    group, in order, and only then resolves the activation and runs the
    closing pass, which reads the ledger as the increments left it.  With
    distinct tab identities, the age counter of every open tab has grown by
    exactly 1 at that point, and the closing pass does not change it. *)
Theorem tick_increments_before_closing (h : Host) :
  exec intervalCallback h = exec closeIfActive (exec incrementAll h)
  /\ callsOf incrementAll h = (IncrementTabTimeCounter <$> openTabs h)
  /\ (exists msg,
        callsOf intervalCallback h =
        (IncrementTabTimeCounter <$> openTabs h)
          ++ [Log msg] ++ closingCalls (exec incrementAll h))
  /\ (forall t, IncrementTabTimeCounter t ∉ closingCalls (exec incrementAll h))
  /\ (NoDup (openTabs h) ->
      forall t age, t ∈ openTabs h -> tabTimeCounters h !! t = Some age ->
        tabTimeCounters (exec incrementAll h) !! t = Some (age + 1)
        /\ tabTimeCounters (exec intervalCallback h) !! t = Some (age + 1)).
Proof.
  split; [apply intervalCallback_phases|].
  split; [apply callsOf_app; rewrite incrementAll_exec; reflexivity|].
  split; [apply intervalCallback_calls|].
  split; [intros t; apply IncrementTabTimeCounter_not_closing|].
  intros Hnd t age Hin Hage.
  assert (tabTimeCounters (exec incrementAll h) !! t = Some (age + 1)) as Hinc.
  { rewrite incrementAll_exec. cbn [tabTimeCounters withTabTimeCounters].
    rewrite (incremented_once _ _ t Hnd Hin), Hage. reflexivity. }
  split; [exact Hinc|].
  rewrite intervalCallback_phases.
  destruct (closeIfActive_exec (exec incrementAll h)) as [msg E].
  rewrite E. exact Hinc.
Qed.

Lemma tick_increments_before_closing_witness :
  tabTimeCounters (exec incrementAll demo) !! "a.ts" = Some 32
  /\ tabTimeCounters (exec intervalCallback demo) !! "a.ts" = Some 32.
Proof.
  assert (NoDup (openTabs demo)) as Hnd.
  { refine (bool_decide_unpack (NoDup (openTabs demo)) _).
    vm_compute. exact I. }
  assert ("a.ts" ∈ openTabs demo) as Hin by left.
  pose proof (tick_increments_before_closing demo) as (_ & _ & _ & _ & Hinc).
  exact (Hinc Hnd "a.ts" 31 Hin eq_refl).
Defined.

(** C8.  On a tick, [closeTabs] is called exactly when
    [isActiveInWorkspace] returns true at that tick, and then with the
    configured [tabAgeForAutomaticClosing]; when it returns false, no close
    request is issued either. *)
Theorem tick_closes_iff_active (h : Host) :
  eval isActiveInWorkspace (exec incrementAll h) = eval isActiveInWorkspace h
  /\ (forall threshold,
        CloseTabs threshold ∈ callsOf intervalCallback h
        <-> eval isActiveInWorkspace h = true
            /\ threshold = tabAgeForAutomaticClosing (settings h))
  /\ (forall tabs,
        CloseRequest tabs ∈ callsOf intervalCallback h ->
        eval isActiveInWorkspace h = true).
Proof.
  split.
  { apply isActiveInWorkspace_eval_ext; rewrite incrementAll_exec; reflexivity. }
  destruct (intervalCallback_calls h) as [msg E].
  rewrite E, closingCalls_after_increments.
  split.
  - intros threshold. rewrite !elem_of_app, list_elem_of_fmap.
    split.
    + intros [(t & Ht & _)|[Hin|Hin]]; [discriminate Ht| |].
      * apply list_elem_of_singleton in Hin. discriminate Hin.
      * destruct (eval isActiveInWorkspace h).
        -- apply elem_of_cons in Hin as [Hin|Hin].
           ++ injection Hin as ->. split; reflexivity.
           ++ apply list_elem_of_singleton in Hin. discriminate Hin.
        -- apply elem_of_nil in Hin. destruct Hin.
    + intros [-> ->]. right. right. left.
  - intros tabs. rewrite !elem_of_app, list_elem_of_fmap.
    intros [(t & Ht & _)|[Hin|Hin]]; [discriminate Ht| |].
    + apply list_elem_of_singleton in Hin. discriminate Hin.
    + destruct (eval isActiveInWorkspace h); [reflexivity|].
      apply elem_of_nil in Hin. destruct Hin.
Qed.

Example tick_active_demo :
  callsOf intervalCallback demo =
  [IncrementTabTimeCounter "a.ts"; IncrementTabTimeCounter "b.ts";
   IncrementTabTimeCounter "c.ts";
   Log "Workspace folder URI is file:///home/u/proj";
   CloseTabs 30; CloseRequest ["a.ts"; "c.ts"]].
Proof. vm_compute. reflexivity. Qed.

Lemma tick_closes_iff_active_witness :
  CloseTabs 30 ∈ callsOf intervalCallback demo
  /\ eval isActiveInWorkspace demo = true.
Proof.
  pose proof (tick_closes_iff_active demo) as (_ & Hiff & Hreq).
  split.
  - apply (Hiff 30). split; reflexivity.
  - apply (Hreq ["a.ts"; "c.ts"]).
    rewrite tick_active_demo. right. right. right. right. right. left.
Defined.

(** C9.  The command [autoclosetabs.closeUnusedTabs] runs the closing pass
    with threshold 0 and nothing else; no configured threshold and no
    activation state changes that. *)
Theorem closeUnusedTabs_threshold_zero (h : Host) :
  exec (registerCommands autoclosetabs_closeUnusedTabs) h = exec (closeTabs 0) h
  /\ callsOf (registerCommands autoclosetabs_closeUnusedTabs) h =
     [CloseTabs 0;
      CloseRequest (selectToClose 0 (tabTimeCounters h) (openTabs h))]
  /\ (forall s : Settings,
        callsOf (registerCommands autoclosetabs_closeUnusedTabs)
                (withSettings s h)
        = callsOf (registerCommands autoclosetabs_closeUnusedTabs) h).
Proof.
  split; [reflexivity|].
  split; [apply closeTabs_calls|].
  intros s. cbn [registerCommands]. rewrite !closeTabs_calls. reflexivity.
Qed.

Example tick_inactive_demo :
  callsOf intervalCallback demoExcluded =
  [IncrementTabTimeCounter "a.ts"; IncrementTabTimeCounter "b.ts";
   IncrementTabTimeCounter "c.ts";
   Log "Workspace folder URI is file:///home/u/proj"].
Proof. vm_compute. reflexivity. Qed.

Example closeUnusedTabs_inactive_demo :
  callsOf (registerCommands autoclosetabs_closeUnusedTabs) demoExcluded =
  [CloseTabs 0; CloseRequest ["a.ts"; "c.ts"]].
Proof. vm_compute. reflexivity. Qed.

(** * Further properties of the commands and the resolver *)

(** Either command leaves the workspace, the tabs and the ledger alone and
    writes at most a new settings record with the same mode and threshold. *)
Lemma activateInWorkspace_shape (h : Host) :
  exists cs s',
    exec activateInWorkspace h = withSettings s' (withCalls cs h)
    /\ activation s' = activation (settings h)
    /\ tabAgeForAutomaticClosing s' = tabAgeForAutomaticClosing (settings h)
    /\ (eval isActiveByDefault h = true ->
        includedWorkspaces s' = includedWorkspaces (settings h))
    /\ (eval isActiveByDefault h = false ->
        excludedWorkspaces s' = excludedWorkspaces (settings h)).
Proof.
  destruct (activateInWorkspace_exec h) as [msg E]. cbv zeta in E.
  destruct (truthy (eval getWorkspaceUri h)).
  - eexists _, _. split; [exact E|].
    destruct (eval isActiveByDefault h); repeat split; congruence.
  - exists (calls h ++ [Log msg; ShowInformationMessage
      "Auto Close Tabs cannot be activated in a temporary workspace."]),
      (settings h).
    split; [exact E|]. repeat split; reflexivity.
Qed.

Lemma deactivateInWorkspace_shape (h : Host) :
  exists cs s',
    exec deactivateInWorkspace h = withSettings s' (withCalls cs h)
    /\ activation s' = activation (settings h)
    /\ tabAgeForAutomaticClosing s' = tabAgeForAutomaticClosing (settings h)
    /\ (eval isActiveByDefault h = true ->
        includedWorkspaces s' = includedWorkspaces (settings h))
    /\ (eval isActiveByDefault h = false ->
        excludedWorkspaces s' = excludedWorkspaces (settings h)).
Proof.
  destruct (deactivateInWorkspace_exec h) as [msg E]. cbv zeta in E.
  destruct (truthy (eval getWorkspaceUri h)).
  - eexists _, _. split; [exact E|].
    destruct (eval isActiveByDefault h); repeat split; congruence.
  - exists (calls h ++ [Log msg; ShowInformationMessage
      "Auto Close Tabs cannot be deactivated in a temporary workspace."]),
      (settings h).
    split; [exact E|]. repeat split; reflexivity.
Qed.

Lemma isActiveByDefault_activation (h h' : Host) :
  activation (settings h') = activation (settings h) ->
  eval isActiveByDefault h' = eval isActiveByDefault h.
Proof.
  intros E.
  change (negb (strictEquals (activation (settings h'))
                             (JsString "nowhere-except-included"))
          = negb (strictEquals (activation (settings h))
                               (JsString "nowhere-except-included"))).
  rewrite E. reflexivity.
Qed.

(** The resolver's answer in a workspace whose identifier is [w]. *)
Lemma isActiveInWorkspace_resolved (h : Host) (w : string) :
  eval getWorkspaceUri h = Some w -> w <> "" ->
  eval isActiveInWorkspace h =
  if eval isActiveByDefault h
  then negb (bool_decide (w ∈ excludedWorkspaces (settings h)))
  else bool_decide (w ∈ includedWorkspaces (settings h)).
Proof.
  intros Hw Hne. rewrite isActiveInWorkspace_eval, Hw.
  apply truthy_Some in Hne. rewrite Hne. simpl default.
  rewrite !includes_elem_of. reflexivity.
Qed.

Lemma isActiveInWorkspace_unresolved (h : Host) :
  truthy (eval getWorkspaceUri h) = false ->
  eval isActiveInWorkspace h = eval isActiveByDefault h.
Proof.
  intros Hno. rewrite isActiveInWorkspace_eval, Hno.
  destruct (eval isActiveByDefault h); reflexivity.
Qed.

Lemma elem_of_filter_ne (l : list string) (w x : string) :
  x ∈ filter (fun y => y <> w) l <-> x <> w /\ x ∈ l.
Proof. apply (list_elem_of_filter (fun y => y <> w)). Qed.

(** The identifier and the mode after a command are those before it. *)
Lemma activateInWorkspace_keeps_context (h : Host) :
  eval getWorkspaceUri (exec activateInWorkspace h) = eval getWorkspaceUri h
  /\ eval isActiveByDefault (exec activateInWorkspace h) = eval isActiveByDefault h.
Proof.
  destruct (activateInWorkspace_shape h) as (cs & s' & E & Hact & _).
  split.
  - rewrite E. apply getWorkspaceUri_eval_ext; reflexivity.
  - apply isActiveByDefault_activation. rewrite E. exact Hact.
Qed.

Lemma deactivateInWorkspace_keeps_context (h : Host) :
  eval getWorkspaceUri (exec deactivateInWorkspace h) = eval getWorkspaceUri h
  /\ eval isActiveByDefault (exec deactivateInWorkspace h) = eval isActiveByDefault h.
Proof.
  destruct (deactivateInWorkspace_shape h) as (cs & s' & E & Hact & _).
  split.
  - rewrite E. apply getWorkspaceUri_eval_ext; reflexivity.
  - apply isActiveByDefault_activation. rewrite E. exact Hact.
Qed.

Lemma not_elem_of_filter_ne (l : list string) (w : string) :
  w ∉ filter (fun y => y <> w) l.
Proof.
  intros Hin. apply elem_of_filter_ne in Hin as [Hn _]. apply Hn. reflexivity.
Qed.

Lemma elem_of_snoc (l : list string) (w : string) : w ∈ l ++ [w].
Proof. apply elem_of_app. right. left. Qed.

(** The resolver's answer after either command, from the lists the command
    leaves behind. *)
Lemma isActiveInWorkspace_after_activate (h : Host) (w : string) :
  eval getWorkspaceUri h = Some w -> w <> "" ->
  eval isActiveInWorkspace (exec activateInWorkspace h) =
  if eval isActiveByDefault h
  then negb (bool_decide
               (w ∈ filter (fun x => x <> w) (excludedWorkspaces (settings h))))
  else bool_decide (w ∈ includedWorkspaces (settings h) ++ [w]).
Proof.
  intros Hw Hne.
  destruct (activateInWorkspace_keeps_context h) as [Hw' Hm'].
  rewrite Hw in Hw'.
  rewrite (isActiveInWorkspace_resolved _ w Hw' Hne), Hm'.
  rewrite (activateInWorkspace_settings h w Hw Hne).
  destruct (eval isActiveByDefault h); reflexivity.
Qed.

Lemma isActiveInWorkspace_after_deactivate (h : Host) (w : string) :
  eval getWorkspaceUri h = Some w -> w <> "" ->
  eval isActiveInWorkspace (exec deactivateInWorkspace h) =
  if eval isActiveByDefault h
  then negb (bool_decide (w ∈ excludedWorkspaces (settings h) ++ [w]))
  else bool_decide
         (w ∈ filter (fun x => x <> w) (includedWorkspaces (settings h))).
Proof.
  intros Hw Hne.
  destruct (deactivateInWorkspace_keeps_context h) as [Hw' Hm'].
  rewrite Hw in Hw'.
  rewrite (isActiveInWorkspace_resolved _ w Hw' Hne), Hm'.
  rewrite (deactivateInWorkspace_settings h w Hw Hne).
  destruct (eval isActiveByDefault h); reflexivity.
Qed.

(** X1.  After [activate()] in a workspace with a resolvable identifier the
    resolver answers true, in either mode and whatever the two lists held
    before (any number of copies of the identifier included). *)
Theorem activate_makes_active (h : Host) (w : string) :
  eval getWorkspaceUri h = Some w -> w <> "" ->
  eval isActiveInWorkspace (exec activateInWorkspace h) = true.
Proof.
  intros Hw Hne. rewrite (isActiveInWorkspace_after_activate h w Hw Hne).
  destruct (eval isActiveByDefault h).
  - rewrite bool_decide_eq_false_2 by apply not_elem_of_filter_ne.
    reflexivity.
  - apply bool_decide_eq_true_2, elem_of_snoc.
Qed.

Lemma activate_makes_active_witness :
  eval isActiveInWorkspace
    (exec activateInWorkspace (inW1 JsUndefined [W1; W2; W1] [])) = true.
Proof.
  assert (W1 <> "") as Hne by discriminate.
  exact (activate_makes_active (inW1 JsUndefined [W1; W2; W1] []) W1
           eq_refl Hne).
Defined.

(** X2.  After [deactivate()] in a workspace with a resolvable identifier
    the resolver answers false, in either mode and whatever the two lists
    held before. *)
Theorem deactivate_makes_inactive (h : Host) (w : string) :
  eval getWorkspaceUri h = Some w -> w <> "" ->
  eval isActiveInWorkspace (exec deactivateInWorkspace h) = false.
Proof.
  intros Hw Hne. rewrite (isActiveInWorkspace_after_deactivate h w Hw Hne).
  destruct (eval isActiveByDefault h).
  - rewrite bool_decide_eq_true_2 by apply elem_of_snoc. reflexivity.
  - apply bool_decide_eq_false_2, not_elem_of_filter_ne.
Qed.

Lemma deactivate_makes_inactive_witness :
  eval isActiveInWorkspace
    (exec deactivateInWorkspace
       (inW1 (JsString "nowhere-except-included") [] [W1; W2; W1])) = false.
Proof.
  assert (W1 <> "") as Hne by discriminate.
  exact (deactivate_makes_inactive
           (inW1 (JsString "nowhere-except-included") [] [W1; W2; W1]) W1
           eq_refl Hne).
Defined.

Lemma elem_of_snoc_ne (l : list string) (w x : string) :
  x <> w -> (x ∈ l ++ [w] <-> x ∈ l).
Proof.
  intros Hne. rewrite elem_of_app, list_elem_of_singleton. tauto.
Qed.

(** The resolver's answer under the settings [s] in the workspace of [h2]. *)
Lemma isActiveInWorkspace_withSettings (s : Settings) (h2 : Host) :
  eval isActiveInWorkspace (withSettings s h2) =
  if negb (strictEquals (activation s) (JsString "nowhere-except-included"))
  then
    if truthy (eval getWorkspaceUri h2)
    then negb (bool_decide (default "" (eval getWorkspaceUri h2)
                            ∈ excludedWorkspaces s))
    else true
  else
    if truthy (eval getWorkspaceUri h2)
    then bool_decide (default "" (eval getWorkspaceUri h2)
                      ∈ includedWorkspaces s)
    else false.
Proof.
  rewrite isActiveInWorkspace_eval.
  rewrite (getWorkspaceUri_eval_ext (withSettings s h2) h2 eq_refl eq_refl).
  rewrite !includes_elem_of. reflexivity.
Qed.

(** Two settings records that agree on the mode and on whether [w2] is in
    each list give the same answer in the workspace [w2]. *)
Lemma isActiveInWorkspace_agree (s s' : Settings) (h2 : Host) :
  activation s' = activation s ->
  (truthy (eval getWorkspaceUri h2) = true ->
   let w2 := default "" (eval getWorkspaceUri h2) in
   (w2 ∈ excludedWorkspaces s' <-> w2 ∈ excludedWorkspaces s)
   /\ (w2 ∈ includedWorkspaces s' <-> w2 ∈ includedWorkspaces s)) ->
  eval isActiveInWorkspace (withSettings s' h2)
  = eval isActiveInWorkspace (withSettings s h2).
Proof.
  intros Hact Hmem. rewrite !isActiveInWorkspace_withSettings, Hact.
  destruct (truthy (eval getWorkspaceUri h2)); [|reflexivity].
  destruct (Hmem eq_refl) as [Hex Hin].
  rewrite (bool_decide_ext _ _ Hex), (bool_decide_ext _ _ Hin). reflexivity.
Qed.

(** X3.  [activate()] and [deactivate()] act on the current workspace only:
    in any workspace that resolves to another identifier, or to none, the
    resolver answers after the command what it answered before. *)
Theorem commands_spare_other_workspaces (h h2 : Host) :
  eval getWorkspaceUri h2 <> eval getWorkspaceUri h ->
  eval isActiveInWorkspace
    (withSettings (settings (exec activateInWorkspace h)) h2)
  = eval isActiveInWorkspace (withSettings (settings h) h2)
  /\ eval isActiveInWorkspace
       (withSettings (settings (exec deactivateInWorkspace h)) h2)
     = eval isActiveInWorkspace (withSettings (settings h) h2).
Proof.
  intros Hother.
  destruct (activateInWorkspace_shape h) as (ca & sa & Ea & Haa & _).
  destruct (deactivateInWorkspace_shape h) as (cd & sd & Ed & Had & _).
  destruct (eval getWorkspaceUri h) as [w|] eqn:Hw.
  2:{ destruct (activateInWorkspace_exec h) as [m1 E1].
      destruct (deactivateInWorkspace_exec h) as [m2 E2].
      cbv zeta in E1, E2. rewrite Hw in E1, E2. simpl in E1, E2.
      rewrite E1, E2. split; reflexivity. }
  destruct (decide (w = "")) as [->|Hne].
  { destruct (activateInWorkspace_exec h) as [m1 E1].
    destruct (deactivateInWorkspace_exec h) as [m2 E2].
    cbv zeta in E1, E2. rewrite Hw in E1, E2. simpl in E1, E2.
    rewrite E1, E2. split; reflexivity. }
  pose proof (activateInWorkspace_settings h w Hw Hne) as Hsa.
  pose proof (deactivateInWorkspace_settings h w Hw Hne) as Hsd.
  assert (truthy (eval getWorkspaceUri h2) = true ->
          default "" (eval getWorkspaceUri h2) <> w) as Hw2.
  { destruct (eval getWorkspaceUri h2) as [w2|]; [|discriminate].
    intros _. simpl. congruence. }
  split; apply isActiveInWorkspace_agree.
  - rewrite Ea. exact Haa.
  - intros Ht w2. specialize (Hw2 Ht). fold w2 in Hw2. rewrite Hsa.
    destruct (eval isActiveByDefault h); simpl; split; try tauto.
    + rewrite elem_of_filter_ne. tauto.
    + apply elem_of_snoc_ne. exact Hw2.
  - rewrite Ed. exact Had.
  - intros Ht w2. specialize (Hw2 Ht). fold w2 in Hw2. rewrite Hsd.
    destruct (eval isActiveByDefault h); simpl; split; try tauto.
    + apply elem_of_snoc_ne. exact Hw2.
    + rewrite elem_of_filter_ne. tauto.
Qed.

Lemma commands_spare_other_workspaces_witness :
  eval isActiveInWorkspace
    (withSettings (settings (exec deactivateInWorkspace (inW1 JsUndefined [] [])))
                  (inW2 JsUndefined [] []))
  = eval isActiveInWorkspace
      (withSettings (settings (inW1 JsUndefined [] [])) (inW2 JsUndefined [] [])).
Proof.
  assert (eval getWorkspaceUri (inW2 JsUndefined [] [])
          <> eval getWorkspaceUri (inW1 JsUndefined [] [])) as Hother
    by discriminate.
  exact (proj2 (commands_spare_other_workspaces
                  (inW1 JsUndefined [] []) (inW2 JsUndefined [] []) Hother)).
Defined.

(** X4.  [activate()] and [deactivate()] never change the workspace, the
    tab groups, the age counters, the activation mode or the age threshold,
    and never write the list of the other mode: default-active leaves
    included-workspaces alone, default-inactive excluded-workspaces. *)
Theorem commands_touch_one_list (h : Host) :
  forall h', h' = exec activateInWorkspace h \/ h' = exec deactivateInWorkspace h ->
  workspaceFile h' = workspaceFile h
  /\ workspaceFolders h' = workspaceFolders h
  /\ tabGroups h' = tabGroups h
  /\ tabTimeCounters h' = tabTimeCounters h
  /\ activation (settings h') = activation (settings h)
  /\ tabAgeForAutomaticClosing (settings h')
     = tabAgeForAutomaticClosing (settings h)
  /\ (eval isActiveByDefault h = true ->
      includedWorkspaces (settings h') = includedWorkspaces (settings h))
  /\ (eval isActiveByDefault h = false ->
      excludedWorkspaces (settings h') = excludedWorkspaces (settings h)).
Proof.
  intros h' [->| ->].
  - destruct (activateInWorkspace_shape h) as (cs & s' & E & Ha & Ht & Hi & He).
    rewrite E. repeat split; assumption.
  - destruct (deactivateInWorkspace_shape h) as (cs & s' & E & Ha & Ht & Hi & He).
    rewrite E. repeat split; assumption.
Qed.

Lemma commands_touch_one_list_witness :
  includedWorkspaces
    (settings (exec deactivateInWorkspace (inW1 JsUndefined [] [W2])))
  = [W2].
Proof.
  pose proof (commands_touch_one_list (inW1 JsUndefined [] [W2])
                (exec deactivateInWorkspace (inW1 JsUndefined [] [W2]))
                (or_intror eq_refl))
    as (_ & _ & _ & _ & _ & _ & Hi & _).
  exact (Hi eq_refl).
Defined.

Lemma filter_ne_fixed_iff (l : list string) (w : string) :
  filter (fun x => x <> w) l = l <-> w ∉ l.
Proof.
  split; [|apply filter_ne_absent].
  intros Hfix Hin. rewrite <- Hfix in Hin.
  apply elem_of_filter_ne in Hin as [Hn _]. apply Hn. reflexivity.
Qed.

Lemma filter_ne_idempotent (l : list string) (w : string) :
  filter (fun x => x <> w) (filter (fun x => x <> w) l)
  = filter (fun x => x <> w) l.
Proof.
  apply filter_ne_absent. intros Hin.
  apply elem_of_filter_ne in Hin as [Hn _]. apply Hn. reflexivity.
Qed.

Lemma updateSettingValue_excluded_same (s : Settings) :
  updateSettingValue autoclosetabs_excludedWorkspaces (excludedWorkspaces s) s = s.
Proof. destruct s; reflexivity. Qed.

Lemma updateSettingValue_included_same (s : Settings) :
  updateSettingValue autoclosetabs_includedWorkspaces (includedWorkspaces s) s = s.
Proof. destruct s; reflexivity. Qed.

(** X5.  The command that takes the identifier out of a list ([activate()]
    in default-active mode, [deactivate()] in default-inactive mode) leaves
    the settings exactly as they are when the identifier is not in the
    list, and running it twice gives the same settings as running it
    once. *)
Theorem removing_command_noop_and_idempotent (h : Host) (w : string) :
  eval getWorkspaceUri h = Some w -> w <> "" ->
  (eval isActiveByDefault h = true ->
   (w ∉ excludedWorkspaces (settings h) ->
    settings (exec activateInWorkspace h) = settings h)
   /\ settings (exec activateInWorkspace (exec activateInWorkspace h))
      = settings (exec activateInWorkspace h))
  /\ (eval isActiveByDefault h = false ->
      (w ∉ includedWorkspaces (settings h) ->
       settings (exec deactivateInWorkspace h) = settings h)
      /\ settings (exec deactivateInWorkspace (exec deactivateInWorkspace h))
         = settings (exec deactivateInWorkspace h)).
Proof.
  intros Hw Hne. split; intros Hmode.
  - destruct (activateInWorkspace_keeps_context h) as [Hw1 Hm1].
    rewrite Hw in Hw1. rewrite Hmode in Hm1.
    rewrite (activateInWorkspace_settings _ w Hw1 Hne), Hm1.
    rewrite (activateInWorkspace_settings h w Hw Hne), Hmode.
    split.
    + intros Hout. rewrite (filter_ne_absent _ w Hout).
      apply updateSettingValue_excluded_same.
    + simpl. rewrite filter_ne_idempotent. reflexivity.
  - destruct (deactivateInWorkspace_keeps_context h) as [Hw1 Hm1].
    rewrite Hw in Hw1. rewrite Hmode in Hm1.
    rewrite (deactivateInWorkspace_settings _ w Hw1 Hne), Hm1.
    rewrite (deactivateInWorkspace_settings h w Hw Hne), Hmode.
    split.
    + intros Hout. rewrite (filter_ne_absent _ w Hout).
      apply updateSettingValue_included_same.
    + simpl. rewrite filter_ne_idempotent. reflexivity.
Qed.

Lemma removing_command_noop_and_idempotent_witness :
  settings (exec activateInWorkspace (inW1 JsUndefined [W2] []))
  = settings (inW1 JsUndefined [W2] []).
Proof.
  assert (W1 <> "") as Hne by discriminate.
  pose proof (removing_command_noop_and_idempotent
                (inW1 JsUndefined [W2] []) W1 eq_refl Hne) as (Hact & _).
  apply (proj1 (Hact eq_refl)).
  intros Hin. apply elem_of_cons in Hin as [Hin|Hin]; [discriminate Hin|].
  apply elem_of_nil in Hin. exact Hin.
Defined.

Lemma deactivateThenActivate_settings (h : Host) (w : string) :
  eval getWorkspaceUri h = Some w -> w <> "" ->
  settings (exec deactivateThenActivate h) =
  if eval isActiveByDefault h then
    updateSettingValue autoclosetabs_excludedWorkspaces
      (filter (fun x => x <> w) (excludedWorkspaces (settings h)))
      (settings h)
  else
    updateSettingValue autoclosetabs_includedWorkspaces
      (filter (fun x => x <> w) (includedWorkspaces (settings h)) ++ [w])
      (settings h).
Proof.
  intros Hw Hne. unfold deactivateThenActivate. rewrite exec_bind.
  cbn [registerCommands].
  destruct (deactivateInWorkspace_keeps_context h) as [Hw1 Hm1].
  rewrite Hw in Hw1.
  rewrite (activateInWorkspace_settings _ w Hw1 Hne), Hm1.
  rewrite (deactivateInWorkspace_settings h w Hw Hne).
  destruct (eval isActiveByDefault h); simpl.
  - rewrite filter_ne_snoc. reflexivity.
  - reflexivity.
Qed.

(** X6.  [deactivate()] followed by [activate()].  In default-active mode
    the settings end exactly as they began if and only if the identifier
    was not excluded at the start; in default-inactive mode
    excluded-workspaces is untouched and included-workspaces ends with its
    original contents, up to order, if and only if it held the identifier
    exactly once. *)
Theorem deactivate_activate_round_trip (h : Host) (w : string) :
  eval getWorkspaceUri h = Some w -> w <> "" ->
  (eval isActiveByDefault h = true ->
   (settings (exec deactivateThenActivate h) = settings h
    <-> w ∉ excludedWorkspaces (settings h)))
  /\ (eval isActiveByDefault h = false ->
      excludedWorkspaces (settings (exec deactivateThenActivate h))
      = excludedWorkspaces (settings h)
      /\ (includedWorkspaces (settings (exec deactivateThenActivate h))
            ≡ₚ includedWorkspaces (settings h)
          <-> length (filter (fun x => x = w)
                             (includedWorkspaces (settings h))) = 1%nat)).
Proof.
  intros Hw Hne. rewrite (deactivateThenActivate_settings h w Hw Hne).
  split; intros ->.
  - rewrite <- filter_ne_fixed_iff. split.
    + intros E. apply (f_equal excludedWorkspaces) in E. exact E.
    + intros E. rewrite E. apply updateSettingValue_excluded_same.
  - simpl. split; [reflexivity|]. apply remove_then_append_perm.
Qed.

Lemma deactivate_activate_round_trip_witness :
  settings (exec deactivateThenActivate (inW1 JsUndefined [W2] []))
  = settings (inW1 JsUndefined [W2] []).
Proof.
  assert (W1 <> "") as Hne by discriminate.
  pose proof (deactivate_activate_round_trip
                (inW1 JsUndefined [W2] []) W1 eq_refl Hne) as (Hact & _).
  apply (Hact eq_refl).
  intros Hin. apply elem_of_cons in Hin as [Hin|Hin]; [discriminate Hin|].
  apply elem_of_nil in Hin. exact Hin.
Defined.

(** X7.  The resolver reads the lists as sets, and only the list of the
    current mode: replacing excluded-workspaces (in default-active mode) or
    included-workspaces (in default-inactive mode) by any list with the
    same members, and the other list by any list at all, does not change
    its answer. *)
Theorem resolver_reads_membership_only (h : Host) (excluded included : list string) :
  (eval isActiveByDefault h = true ->
   forall x, x ∈ excluded <-> x ∈ excludedWorkspaces (settings h)) ->
  (eval isActiveByDefault h = false ->
   forall x, x ∈ included <-> x ∈ includedWorkspaces (settings h)) ->
  eval isActiveInWorkspace (withOverrideLists excluded included h)
  = eval isActiveInWorkspace h.
Proof.
  intros Hex Hin. unfold withOverrideLists.
  rewrite isActiveInWorkspace_withSettings.
  rewrite (isActiveInWorkspace_eval h), !includes_elem_of.
  change (eval isActiveByDefault h)
    with (negb (strictEquals (activation (settings h))
                             (JsString "nowhere-except-included"))) in *.
  cbn [activation excludedWorkspaces includedWorkspaces].
  destruct (negb (strictEquals (activation (settings h)) _)).
  - destruct (truthy (eval getWorkspaceUri h)); [|reflexivity].
    rewrite (bool_decide_ext _ _ (Hex eq_refl _)). reflexivity.
  - destruct (truthy (eval getWorkspaceUri h)); [|reflexivity].
    rewrite (bool_decide_ext _ _ (Hin eq_refl _)). reflexivity.
Qed.

Lemma resolver_reads_membership_only_witness :
  eval isActiveInWorkspace
    (withOverrideLists [W2; W1; W2; W1] [W1] (inW1 JsUndefined [W1; W2] []))
  = eval isActiveInWorkspace (inW1 JsUndefined [W1; W2] []).
Proof.
  apply (resolver_reads_membership_only (inW1 JsUndefined [W1; W2] [])).
  - intros _ x. cbn [excludedWorkspaces settings inW1].
    rewrite !elem_of_cons. tauto.
  - intros Hmode. discriminate Hmode.
Defined.

(** * The tab listener and the tick over time *)

Lemma withTabTimeCounters_same (h : Host) :
  withTabTimeCounters (tabTimeCounters h) h = h.
Proof. destruct h; reflexivity. Qed.

(** A loop whose body writes the ledger only writes the ledger only. *)
Lemma forEach_ledger_only {A} (f : A -> M unit) (xs : list A) :
  (forall x h, exec (f x) h
               = withTabTimeCounters (tabTimeCounters (exec (f x) h)) h) ->
  forall h, exec (forEach f xs) h
            = withTabTimeCounters (tabTimeCounters (exec (forEach f xs) h)) h.
Proof.
  intros Hf. induction xs as [|x r IH]; intros h.
  - symmetry. apply withTabTimeCounters_same.
  - cbn [forEach]. rewrite exec_bind.
    rewrite (IH (exec (f x) h)) at 1. rewrite (Hf x h) at 2. reflexivity.
Qed.

Lemma forEach_reset_lookup (tabs : list Tab) (h : Host) (t : Tab) :
  tabTimeCounters (exec (forEach resetTabTimeCounter tabs) h) !! t =
  if decide (t ∈ tabs) then Some 0 else tabTimeCounters h !! t.
Proof.
  revert h. induction tabs as [|x r IH]; intros h.
  - rewrite decide_False by apply not_elem_of_nil. reflexivity.
  - cbn [forEach]. rewrite exec_bind, IH.
    change (tabTimeCounters (exec (resetTabTimeCounter x) h))
      with (<[x := 0]> (tabTimeCounters h)).
    destruct (decide (t ∈ r)) as [Hr|Hr].
    + rewrite decide_True by (right; exact Hr). reflexivity.
    + destruct (decide (x = t)) as [->|Hne].
      * rewrite decide_True by left. apply lookup_insert_eq.
      * rewrite decide_False.
        -- apply lookup_insert_ne. exact Hne.
        -- intros Hin. apply elem_of_cons in Hin as [->|Hin]; [|exact (Hr Hin)].
           apply Hne. reflexivity.
Qed.

Lemma forEach_remove_lookup (tabs : list Tab) (h : Host) (t : Tab) :
  tabTimeCounters (exec (forEach removeTabTimeCounter tabs) h) !! t =
  if decide (t ∈ tabs) then None else tabTimeCounters h !! t.
Proof.
  revert h. induction tabs as [|x r IH]; intros h.
  - rewrite decide_False by apply not_elem_of_nil. reflexivity.
  - cbn [forEach]. rewrite exec_bind, IH.
    change (tabTimeCounters (exec (removeTabTimeCounter x) h))
      with (delete x (tabTimeCounters h)).
    destruct (decide (t ∈ r)) as [Hr|Hr].
    + rewrite decide_True by (right; exact Hr). reflexivity.
    + destruct (decide (x = t)) as [->|Hne].
      * rewrite decide_True by left. apply lookup_delete_eq.
      * rewrite decide_False.
        -- apply lookup_delete_ne. exact Hne.
        -- intros Hin. apply elem_of_cons in Hin as [->|Hin]; [|exact (Hr Hin)].
           apply Hne. reflexivity.
Qed.

(** X8.  The tab listener resets before it removes.  After one event, a tab
    reported closed has no age counter, even when the same event also
    reports it opened or changed; any other tab reported opened or changed
    has counter 0; the counters of all other tabs are as before; and
    nothing but the ledger has changed. *)
Theorem onDidChangeTabs_ledger (opened changed closed : list Tab) (h : Host) :
  let h' := exec (onDidChangeTabs opened changed closed) h in
  h' = withTabTimeCounters (tabTimeCounters h') h
  /\ forall t,
       (t ∈ closed -> tabTimeCounters h' !! t = None)
       /\ (t ∉ closed -> t ∈ opened ++ changed ->
           tabTimeCounters h' !! t = Some 0)
       /\ (t ∉ closed -> t ∉ opened ++ changed ->
           tabTimeCounters h' !! t = tabTimeCounters h !! t).
Proof.
  intros h'. subst h'.
  change (onDidChangeTabs opened changed closed)
    with (forEach resetTabTimeCounter (opened ++ changed) ;;
          forEach removeTabTimeCounter closed).
  rewrite exec_bind.
  set (h1 := exec (forEach resetTabTimeCounter (opened ++ changed)) h).
  split.
  - rewrite (forEach_ledger_only removeTabTimeCounter closed) at 1
      by reflexivity.
    unfold h1 at 2.
    rewrite (forEach_ledger_only resetTabTimeCounter (opened ++ changed)) at 1
      by reflexivity.
    reflexivity.
  - intros t.
    rewrite (forEach_remove_lookup closed h1 t). unfold h1.
    rewrite (forEach_reset_lookup (opened ++ changed) h t).
    split; [|split].
    + intros Hc. rewrite decide_True by exact Hc. reflexivity.
    + intros Hc Ho. rewrite decide_False by exact Hc.
      rewrite decide_True by exact Ho. reflexivity.
    + intros Hc Ho. rewrite decide_False by exact Hc.
      rewrite decide_False by exact Ho. reflexivity.
Qed.

Lemma onDidChangeTabs_ledger_witness :
  tabTimeCounters (exec (onDidChangeTabs ["d.ts"] ["a.ts"; "c.ts"] ["c.ts"]) demo)
    !! "c.ts" = None
  /\ tabTimeCounters (exec (onDidChangeTabs ["d.ts"] ["a.ts"; "c.ts"] ["c.ts"]) demo)
       !! "a.ts" = Some 0
  /\ tabTimeCounters (exec (onDidChangeTabs ["d.ts"] ["a.ts"; "c.ts"] ["c.ts"]) demo)
       !! "b.ts" = Some 5.
Proof.
  pose proof (onDidChangeTabs_ledger ["d.ts"] ["a.ts"; "c.ts"] ["c.ts"] demo)
    as (_ & Hl).
  split; [|split].
  - apply (Hl "c.ts"). left.
  - apply (Hl "a.ts").
    + intros Hin. apply list_elem_of_singleton in Hin. discriminate Hin.
    + right. left.
  - transitivity (tabTimeCounters demo !! "b.ts"); [|reflexivity].
    apply (Hl "b.ts").
    + intros Hin. apply list_elem_of_singleton in Hin. discriminate Hin.
    + intros Hin.
      repeat (apply elem_of_cons in Hin as [Hin|Hin]; [discriminate Hin|]).
      apply elem_of_nil in Hin. exact Hin.
Defined.

(** What a tick leaves behind: the tab groups as they were and the ledger
    with one increment per open tab. *)
Lemma intervalCallback_state (h : Host) :
  tabGroups (exec intervalCallback h) = tabGroups h
  /\ tabTimeCounters (exec intervalCallback h)
     = incremented (openTabs h) (tabTimeCounters h)
  /\ settings (exec intervalCallback h) = settings h.
Proof.
  rewrite intervalCallback_phases.
  destruct (closeIfActive_exec (exec incrementAll h)) as [msg E].
  rewrite E, incrementAll_exec. repeat split; reflexivity.
Qed.

Lemma ticks_state (n : nat) (h : Host) :
  NoDup (openTabs h) ->
  tabGroups (ticks n h) = tabGroups h
  /\ settings (ticks n h) = settings h
  /\ forall t age,
       t ∈ openTabs h -> tabTimeCounters h !! t = Some age ->
       tabTimeCounters (ticks n h) !! t = Some (age + Z.of_nat n).
Proof.
  intros Hnd.
  induction n as [|n (Hg & Hs & Hl)].
  - split; [reflexivity|]. split; [reflexivity|].
    intros t age _ Hage. rewrite Z.add_0_r. exact Hage.
  - change (ticks (S n) h) with (exec intervalCallback (ticks n h)).
    destruct (intervalCallback_state (ticks n h)) as (Hg' & Hl' & Hs').
    split; [congruence|]. split; [congruence|].
    intros t age Hin Hage. rewrite Hl'.
    assert (openTabs (ticks n h) = openTabs h) as Ho
      by (unfold openTabs; rewrite Hg; reflexivity).
    rewrite Ho, (incremented_once _ _ t Hnd Hin), (Hl t age Hin Hage).
    simpl. f_equal. lia.
Qed.

(** X9.  Ticks add up.  After [n] ticks with no tab event in between, the
    age counter of every open tab that had one has grown by exactly [n]
    (tab identities being distinct), whether or not the ticks issued close
    requests; the settings are untouched. *)
Theorem ticks_age_open_tabs (n : nat) (h : Host) :
  NoDup (openTabs h) ->
  settings (ticks n h) = settings h
  /\ forall t age,
       t ∈ openTabs h -> tabTimeCounters h !! t = Some age ->
       tabTimeCounters (ticks n h) !! t = Some (age + Z.of_nat n).
Proof.
  intros Hnd. destruct (ticks_state n h Hnd) as (_ & Hs & Hl).
  split; [exact Hs | exact Hl].
Qed.

Lemma ticks_age_open_tabs_witness :
  tabTimeCounters (ticks 3 demo) !! "b.ts" = Some (5 + 3).
Proof.
  assert (NoDup (openTabs demo)) as Hnd.
  { refine (bool_decide_unpack (NoDup (openTabs demo)) _).
    vm_compute. exact I. }
  pose proof (ticks_age_open_tabs 3 demo Hnd) as (_ & Hl).
  apply (Hl "b.ts" 5); [right; left | reflexivity].
Defined.

Lemma onDidChangeTabs_ledger_only (opened changed closed : list Tab) (h : Host) :
  exec (onDidChangeTabs opened changed closed) h
  = withTabTimeCounters
      (tabTimeCounters (exec (onDidChangeTabs opened changed closed) h)) h.
Proof.
  change (onDidChangeTabs opened changed closed)
    with (forEach resetTabTimeCounter (opened ++ changed) ;;
          forEach removeTabTimeCounter closed).
  rewrite exec_bind.
  set (h1 := exec (forEach resetTabTimeCounter (opened ++ changed)) h).
  rewrite (forEach_ledger_only removeTabTimeCounter closed) at 1
    by reflexivity.
  unfold h1 at 2.
  rewrite (forEach_ledger_only resetTabTimeCounter (opened ++ changed)) at 1
    by reflexivity.
  reflexivity.
Qed.

(** X14.  The age counter counts the ticks since the last change.  When an
    event reports an open tab as opened or changed (and not closed) and
    [n] ticks follow with no further tab event, the tab's counter is
    exactly [n], whatever it was before the event. *)
Theorem counter_counts_ticks_since_change (opened changed closed : list Tab)
    (n : nat) (h : Host) (t : Tab) :
  NoDup (openTabs h) -> t ∈ openTabs h ->
  t ∈ opened ++ changed -> t ∉ closed ->
  tabTimeCounters (ticks n (exec (onDidChangeTabs opened changed closed) h)) !! t
  = Some (Z.of_nat n).
Proof.
  intros Hnd Hopen Hchanged Hclosed.
  set (h1 := exec (onDidChangeTabs opened changed closed) h).
  assert (openTabs h1 = openTabs h) as Ho.
  { unfold h1. rewrite onDidChangeTabs_ledger_only. reflexivity. }
  assert (tabTimeCounters h1 !! t = Some 0) as H0.
  { unfold h1.
    change (onDidChangeTabs opened changed closed)
      with (forEach resetTabTimeCounter (opened ++ changed) ;;
            forEach removeTabTimeCounter closed).
    rewrite exec_bind, forEach_remove_lookup, forEach_reset_lookup.
    rewrite decide_False by exact Hclosed.
    apply decide_True. exact Hchanged. }
  rewrite <- Ho in Hnd, Hopen.
  destruct (ticks_state n h1 Hnd) as (_ & _ & Hl).
  rewrite (Hl t 0 Hopen H0). reflexivity.
Qed.

Lemma counter_counts_ticks_since_change_witness :
  tabTimeCounters (ticks 4 (exec (onDidChangeTabs [] ["a.ts"] []) demo)) !! "a.ts"
  = Some 4.
Proof.
  assert (NoDup (openTabs demo)) as Hnd.
  { refine (bool_decide_unpack (NoDup (openTabs demo)) _).
    vm_compute. exact I. }
  apply (counter_counts_ticks_since_change [] ["a.ts"] [] 4 demo "a.ts" Hnd).
  - left.
  - left.
  - apply not_elem_of_nil.
Defined.

(** * Startup, the configuration listener and teardown *)

Lemma setActiveInWorkspaceState_eq (e : Editor) :
  exists msg,
    setActiveInWorkspaceState e =
    setContext "autoclosetabs.activeInWorkspace"
      (eval isActiveInWorkspace (host e))
      (withHost (withCalls (calls (host e) ++ [Log msg]) (host e)) e).
Proof.
  destruct (isActiveInWorkspace_exec (host e)) as [msg E]. exists msg.
  unfold setActiveInWorkspaceState, eval. unfold exec in E.
  destruct (isActiveInWorkspace (host e)) as [active h1]. simpl in *.
  rewrite E. reflexivity.
Qed.

Lemma resetAll_lookup (h : Host) (t : Tab) :
  tabTimeCounters
    (exec (groups <- gets tabGroups ;;
           forEach (fun tabGroup =>
                      forEach (fun tab => resetTabTimeCounter tab) tabGroup)
                   groups) h) !! t
  = if decide (t ∈ openTabs h) then Some 0 else tabTimeCounters h !! t.
Proof.
  rewrite exec_bind.
  change (exec (gets tabGroups) h) with h.
  change (eval (gets tabGroups) h) with (tabGroups h).
  rewrite (forEach_concat resetTabTimeCounter).
  apply forEach_reset_lookup.
Qed.

Lemma resetAll_ledger_only (h : Host) :
  exec (groups <- gets tabGroups ;;
        forEach (fun tabGroup =>
                   forEach (fun tab => resetTabTimeCounter tab) tabGroup)
                groups) h
  = withTabTimeCounters
      (tabTimeCounters
         (exec (forEach resetTabTimeCounter (openTabs h)) h)) h.
Proof.
  rewrite exec_bind.
  change (exec (gets tabGroups) h) with h.
  change (eval (gets tabGroups) h) with (tabGroups h).
  rewrite (forEach_concat resetTabTimeCounter).
  apply (forEach_ledger_only resetTabTimeCounter). reflexivity.
Qed.

(** X10.  Startup.  [activate] publishes the resolver's answer under the
    context key [autoclosetabs.activeInWorkspace], sets the age counter of
    every open tab to 0 and keeps the counters of all other tabs, starts
    one interval whose handle it stores in [interval], pushes its five
    subscriptions, and writes no setting. *)
Theorem activate_startup (e : Editor) :
  contextKeys (activate e) !! "autoclosetabs.activeInWorkspace"
  = Some (eval isActiveInWorkspace (host e))
  /\ (forall t, t ∈ openTabs (host e) ->
        tabTimeCounters (host (activate e)) !! t = Some 0)
  /\ (forall t, t ∉ openTabs (host e) ->
        tabTimeCounters (host (activate e)) !! t
        = tabTimeCounters (host e) !! t)
  /\ interval (activate e) = Some (nextTimer e)
  /\ timers (activate e) = {[nextTimer e]} ∪ timers e
  /\ subscriptions (activate e) =
     subscriptions e ++
       [CommandRegistration autoclosetabs_closeUnusedTabs;
        CommandRegistration autoclosetabs_activate;
        CommandRegistration autoclosetabs_deactivate;
        ConfigurationListener; TabsListener]
  /\ settings (host (activate e)) = settings (host e).
Proof.
  unfold activate.
  set (e3 := subscribe (CommandRegistration autoclosetabs_deactivate)
               (subscribe (CommandRegistration autoclosetabs_activate)
                  (subscribe (CommandRegistration autoclosetabs_closeUnusedTabs) e))).
  destruct (setActiveInWorkspaceState_eq e3) as [msg E]. rewrite E.
  change (host e3) with (host e).
  unfold onHost, withHost, subscribe, setInterval, setContext.
  cbn [host contextKeys subscriptions timers nextTimer interval e3 subscribe].
  split; [apply lookup_insert_eq|].
  split; [|split].
  - intros t Hin. rewrite resetAll_lookup.
    apply decide_True. exact Hin.
  - intros t Hout. rewrite resetAll_lookup.
    rewrite decide_False by exact Hout. reflexivity.
  - split; [reflexivity|]. split; [reflexivity|].
    split; [rewrite <- !app_assoc; reflexivity|].
    rewrite resetAll_ledger_only. reflexivity.
Qed.

(** X11.  The configuration listener republishes the flag exactly when the
    change affects the activation mode or one of the two lists.  A change
    to anything else, the age threshold for one, leaves the editor as it
    is; otherwise the flag becomes the resolver's current answer, every
    other context key is kept, and neither settings, ledger nor interval
    change. *)
Theorem onDidChangeConfiguration_gate (affects : string -> bool) (e : Editor) :
  let watched :=
    affects "autoclosetabs.activation"
    || affects "autoclosetabs.excludedWorkspaces"
    || affects "autoclosetabs.includedWorkspaces" in
  let e' := onDidChangeConfiguration affects e in
  (watched = false -> e' = e)
  /\ (watched = true ->
      contextKeys e' = <["autoclosetabs.activeInWorkspace" :=
                          eval isActiveInWorkspace (host e)]> (contextKeys e)
      /\ settings (host e') = settings (host e)
      /\ tabTimeCounters (host e') = tabTimeCounters (host e)
      /\ timers e' = timers e
      /\ interval e' = interval e).
Proof.
  intros watched e'. subst watched e'. unfold onDidChangeConfiguration.
  split; intros ->; [reflexivity|].
  destruct (setActiveInWorkspaceState_eq e) as [msg E]. rewrite E.
  repeat split; reflexivity.
Qed.

Lemma onDidChangeConfiguration_gate_witness :
  onDidChangeConfiguration
    (fun key => String.eqb key "autoclosetabs.tabAgeForAutomaticClosing")
    (fresh demoExcluded)
  = fresh demoExcluded
  /\ contextKeys
       (onDidChangeConfiguration
          (fun key => String.eqb key "autoclosetabs.excludedWorkspaces")
          (fresh demoExcluded))
     = <["autoclosetabs.activeInWorkspace" := false]> ∅.
Proof.
  split.
  - apply (onDidChangeConfiguration_gate
             (fun key => String.eqb key "autoclosetabs.tabAgeForAutomaticClosing")
             (fresh demoExcluded)).
    reflexivity.
  - apply (onDidChangeConfiguration_gate
             (fun key => String.eqb key "autoclosetabs.excludedWorkspaces")
             (fresh demoExcluded)).
    reflexivity.
Defined.

Lemma writtenListKey_watched (affects : string -> bool) (h : Host) :
  affects (writtenListKey h) = true ->
  affects "autoclosetabs.activation"
  || affects "autoclosetabs.excludedWorkspaces"
  || affects "autoclosetabs.includedWorkspaces" = true.
Proof.
  unfold writtenListKey. destruct (eval isActiveByDefault h); intros ->.
  - rewrite orb_true_r. reflexivity.
  - apply orb_true_r.
Qed.

(** X12.  From command to flag.  In a workspace with a resolvable
    identifier, once the [activate] command has run and the listener has
    seen the change of the list the command wrote, the published flag is
    true; after the [deactivate] command and its notification it is
    false. *)
Theorem command_then_notification_publishes (affects : string -> bool)
    (e : Editor) (w : string) :
  eval getWorkspaceUri (host e) = Some w -> w <> "" ->
  affects (writtenListKey (host e)) = true ->
  contextKeys (onDidChangeConfiguration affects
                 (executeCommand autoclosetabs_activate e))
    !! "autoclosetabs.activeInWorkspace" = Some true
  /\ contextKeys (onDidChangeConfiguration affects
                    (executeCommand autoclosetabs_deactivate e))
       !! "autoclosetabs.activeInWorkspace" = Some false.
Proof.
  intros Hw Hne Haff.
  pose proof (writtenListKey_watched affects (host e) Haff) as Hwatched.
  unfold onDidChangeConfiguration. rewrite Hwatched.
  split.
  - destruct (setActiveInWorkspaceState_eq
                (executeCommand autoclosetabs_activate e)) as [msg E].
    rewrite E. unfold setContext; cbn [contextKeys].
    rewrite lookup_insert_eq. f_equal.
    change (host (executeCommand autoclosetabs_activate e))
      with (exec activateInWorkspace (host e)).
    rewrite (isActiveInWorkspace_after_activate (host e) w Hw Hne).
    destruct (eval isActiveByDefault (host e)).
    + rewrite bool_decide_eq_false_2 by apply not_elem_of_filter_ne.
      reflexivity.
    + apply bool_decide_eq_true_2, elem_of_snoc.
  - destruct (setActiveInWorkspaceState_eq
                (executeCommand autoclosetabs_deactivate e)) as [msg E].
    rewrite E. unfold setContext; cbn [contextKeys].
    rewrite lookup_insert_eq. f_equal.
    change (host (executeCommand autoclosetabs_deactivate e))
      with (exec deactivateInWorkspace (host e)).
    rewrite (isActiveInWorkspace_after_deactivate (host e) w Hw Hne).
    destruct (eval isActiveByDefault (host e)).
    + rewrite bool_decide_eq_true_2 by apply elem_of_snoc. reflexivity.
    + apply bool_decide_eq_false_2, not_elem_of_filter_ne.
Qed.

Lemma command_then_notification_publishes_witness :
  contextKeys
    (onDidChangeConfiguration
       (fun key => String.eqb key "autoclosetabs.excludedWorkspaces")
       (executeCommand autoclosetabs_activate (fresh demoExcluded)))
    !! "autoclosetabs.activeInWorkspace" = Some true.
Proof.
  assert ("file:///home/u/proj" <> "") as Hne by discriminate.
  exact (proj1 (command_then_notification_publishes
                  (fun key => String.eqb key "autoclosetabs.excludedWorkspaces")
                  (fresh demoExcluded) "file:///home/u/proj"
                  eq_refl Hne eq_refl)).
Defined.

Lemma activate_startup_state (e : Editor) :
  interval (activate e) = Some (nextTimer e)
  /\ timers (activate e) = {[nextTimer e]} ∪ timers e.
Proof.
  unfold activate.
  destruct (setActiveInWorkspaceState_eq
              (subscribe (CommandRegistration autoclosetabs_deactivate)
                 (subscribe (CommandRegistration autoclosetabs_activate)
                    (subscribe (CommandRegistration autoclosetabs_closeUnusedTabs)
                       e)))) as [msg E].
  rewrite E. split; reflexivity.
Qed.

(** X13.  Teardown.  [deactivate] stops the interval [activate] started and
    no other; on the host it only logs two lines.  Called before any
    [activate], when [interval] is still undefined, it stops nothing; and
    a second call stops nothing more. *)
Theorem deactivate_stops_own_interval (render : option nat -> string)
    (e : Editor) :
  (nextTimer e ∈ timers (activate e)
   /\ (nextTimer e ∉ timers (deactivate render (activate e)))
   /\ forall t, t <> nextTimer e ->
        (t ∈ timers (deactivate render (activate e)) <-> t ∈ timers e))
  /\ (interval e = None -> timers (deactivate render e) = timers e)
  /\ timers (deactivate render (deactivate render e))
     = timers (deactivate render e)
  /\ host (deactivate render e)
     = withCalls (calls (host e) ++ [Log "Deactivate autoclosetabs";
                                     Log (render (interval e))]) (host e).
Proof.
  assert (forall e0, timers (deactivate render e0) =
                     match interval e0 with
                     | Some t => timers e0 ∖ {[t]}
                     | None => timers e0
                     end) as Ht.
  { intros e0. unfold deactivate, onHost, withHost; cbn [interval host].
    destruct (interval e0); reflexivity. }
  assert (forall e0, interval (deactivate render e0) = interval e0) as Hi.
  { intros e0. unfold deactivate, onHost, withHost; cbn [interval host].
    destruct (interval e0); reflexivity. }
  destruct (activate_startup_state e) as (Hint & Htim).
  split; [|split; [|split]].
  - rewrite Ht, Hint, Htim. split; [|split].
    + apply elem_of_union. left. apply elem_of_singleton. reflexivity.
    + intros Hin. apply elem_of_difference in Hin as [_ Hin].
      apply Hin, elem_of_singleton. reflexivity.
    + intros t Hne.
      rewrite elem_of_difference, elem_of_union, !elem_of_singleton. tauto.
  - intros Hnone. rewrite Ht, Hnone. reflexivity.
  - rewrite Ht, Hi, Ht.
    destruct (interval e); [apply difference_twice_L | reflexivity].
  - unfold deactivate, onHost, withHost, log, emit, modify, exec, withCalls;
      cbn [interval host].
    destruct (interval e); simpl; rewrite <- app_assoc; reflexivity.
Qed.

Lemma deactivate_stops_own_interval_witness :
  timers (deactivate (fun _ => "interval") (fresh demo)) = ∅.
Proof.
  pose proof (deactivate_stops_own_interval (fun _ => "interval") (fresh demo))
    as (_ & Hnone & _).
  exact (Hnone eq_refl).
Defined.

Lemma activate_startup_witness :
  tabTimeCounters (host (activate (fresh demo))) !! "a.ts" = Some 0.
Proof.
  pose proof (activate_startup (fresh demo)) as (_ & Hreset & _).
  apply (Hreset "a.ts"). left.
Defined.
